(** * AI Logistics Route Optimizer: a shallow embedding

    The development follows the TypeScript sources file by file:
    [types/index.ts], [pages/RiskZones.tsx], [components/RouteMap.tsx],
    [components/RouteComparison.tsx], the two [components/DeliveryForm.tsx]
    variants and [pages/Optimizer.tsx].  The decision engine behind the
    optimize endpoint is not among the sources; module [Core] models it
    from the specification.

    Numbers.  A JavaScript [number] is modelled by an exact rational [Q]
    where no property depends on the rounding: comparisons, subtraction and
    absolute value are then the exact ones, on finite values.  Where the
    rounding decides, as for the difference text of the route comparison,
    the numbers are those of the engine: module [Binary64].  Array indices
    and page numbers are integers.

    Strings are [String.string] (sequences of bytes, UTF-8 for the arrow used
    by the Optimizer page). *)

From Stdlib Require Import ZArith QArith Qabs Qround List String Ascii Bool Lia Lqa.
From Stdlib Require Import Permutation.
From Stdlib Require Import Floats.SpecFloat Qpower.
From Stdlib Require Import Numbers.DecimalString Numbers.DecimalPos Numbers.DecimalN.
Import ListNotations.

Local Open Scope string_scope.
Set Warnings "-register-all".

(** ** Built-ins of the language used by the sources *)

Module JS.

(** [x < y] and [x <= y] on numbers. *)
Definition leb (x y : Q) : bool := Qle_bool x y.
Definition ltb (x y : Q) : bool := negb (Qle_bool y x).

(** Decimal digits of a non-negative integer. *)
Definition digits (z : Z) : string :=
  NilEmpty.string_of_uint (N.to_uint (Z.to_N z)).

(** Template-literal conversion of an integer. *)
Definition string_of_int (z : Z) : string :=
  if (z <? 0)%Z then "-" ++ digits (- z) else digits z.

(** [Array.prototype.join]. *)
Definition join (sep : string) (l : list string) : string :=
  String.concat sep l.

Fixpoint repeat0 (n : nat) : string :=
  match n with
  | O => ""
  | S k => "0" ++ repeat0 k
  end.

(** [Number.prototype.toFixed(f)], ECMAScript 21.1.3.3: the sign, then the
    integer [n] nearest to [x * 10^f] (the larger one on a tie), padded to
    [f + 1] digits, with a point before the last [f] digits.  The standard
    switches to the exponent notation from 10^21 on; the model keeps the
    digits there. *)
Definition toFixed (f : nat) (x : Q) : string :=
  let sgn := if ltb x 0 then "-" else "" in
  let ax := Qabs x in
  let n := Qfloor (ax * inject_Z (10 ^ Z.of_nat f) + (1 # 2)) in
  let m := digits n in
  let m := if Nat.leb (String.length m) f
           then repeat0 (f + 1 - String.length m) ++ m else m in
  let k := String.length m in
  match f with
  | O => sgn ++ m
  | S _ => sgn ++ substring 0 (k - f) m ++ "." ++ substring (k - f) f m
  end.

(** [String.prototype.toLowerCase] on the ASCII letters. *)
Definition lower_ascii (c : ascii) : ascii :=
  let n := nat_of_ascii c in
  if andb (Nat.leb 65 n) (Nat.leb n 90) then ascii_of_nat (n + 32) else c.

Fixpoint toLowerCase (s : string) : string :=
  match s with
  | EmptyString => EmptyString
  | String c s' => String (lower_ascii c) (toLowerCase s')
  end.

(** [String.prototype.includes]: [sub] occurs somewhere in [s]. *)
Fixpoint includes (s sub : string) : bool :=
  orb (prefix sub s)
      (match s with
       | EmptyString => false
       | String _ s' => includes s' sub
       end).





(** Truthiness of a string: the empty string is falsy. *)
Definition truthy (s : string) : bool :=
  match s with
  | EmptyString => false
  | String _ _ => true
  end.

(** [Array.prototype.slice(start, end)], with the relative indices of the
    standard: a negative index counts from the end, and both are clamped
    to the length. *)
Definition slice {A : Type} (l : list A) (start end_ : Z) : list A :=
  let len := Z.of_nat (List.length l) in
  let k := if (start <? 0)%Z then Z.max (len + start) 0 else Z.min start len in
  let final := if (end_ <? 0)%Z then Z.max (len + end_) 0 else Z.min end_ len in
  firstn (Z.to_nat (final - k)) (skipn (Z.to_nat k) l).

(** [Array.prototype.filter] with the index argument of the callback. *)
Fixpoint filteri {A : Type} (f : A -> nat -> bool) (i : nat) (l : list A) : list A :=
  match l with
  | [] => []
  | x :: l' => if f x i then x :: filteri f (S i) l' else filteri f (S i) l'
  end.

(** [Array.prototype.map] with the index argument of the callback. *)
Fixpoint mapi {A B : Type} (f : A -> nat -> B) (i : nat) (l : list A) : list B :=
  match l with
  | [] => []
  | x :: l' => f x i :: mapi f (S i) l'
  end.

(** JSON values, for fields typed [any]. *)
Inductive value : Type :=
| VNull : value
| VBool : bool -> value
| VNum : Z -> value
| VStr : string -> value
| VArr : list value -> value
| VObj : list (string * value) -> value.

(** [String.prototype.toUpperCase] on the ASCII letters. *)
Definition upper_ascii (c : ascii) : ascii :=
  let n := nat_of_ascii c in
  if andb (Nat.leb 97 n) (Nat.leb n 122) then ascii_of_nat (n - 32) else c.

(** [s.charAt(0).toUpperCase() + s.slice(1)]. *)
Definition capitalize (s : string) : string :=
  match s with
  | EmptyString => EmptyString
  | String c r => String (upper_ascii c) r
  end.



End JS.

(** ** Numbers of the engine

    The Number values of ECMAScript are the binary64 floating-point numbers
    of IEEE 754.  They are the [spec_float] of the Standard Library at
    precision 53 and exponent bound 1024: arithmetic rounds to the nearest
    number of the format, ties to even; comparisons with NaN are false; the
    two zeros are equal. *)

Module Binary64.

Definition prec : Z := 53.
Definition emax : Z := 1024.


(** The Number value of an integer. *)
Definition of_integer (z : Z) : spec_float := binary_normalize prec emax z 0 false.

(** The Number value of the decimal literal [n / 10^k], for [n] below 2^53
    and [k] up to 22: both are then numbers of the format and the quotient
    is rounded once. *)
Definition of_decimal (n k : Z) : spec_float :=
  SFdiv prec emax (of_integer n) (of_integer (10 ^ k)).

(** [x - y]. *)
Definition sub (x y : spec_float) : spec_float := SFsub prec emax x y.

Definition zero : spec_float := S754_zero false.

(** The literal [0.01]. *)
Definition lit_0_01 : spec_float := S754_finite false 5764607523034235 (-59).

(** The mathematical value of a finite number. *)
Definition exact (x : spec_float) : Q :=
  match x with
  | S754_finite s m e =>
      (if s then - inject_Z (Zpos m) else inject_Z (Zpos m)) * 2 ^ e
  | _ => 0
  end.

(** [Number::toString], ECMAScript 6.1.6.1.20, for an integral [x] of
    [n] decimal digits with mathematical value [X]: the least number [k] of
    significant digits, and the digits [s], such that [s * 10^(n-k)] rounds
    to [x]; of two such [s] the one nearer to [X], the even one on a tie.
    No more than 17 digits are ever needed. *)
Fixpoint shortest (x : spec_float) (X n : Z) (ks : list Z) : Z * Z :=
  match ks with
  | [] => (X, n)
  | k :: ks' =>
      let base := (10 ^ (n - k))%Z in
      let lo := (X / base)%Z in
      let hi := (lo + 1)%Z in
      match SFeqb (of_integer (lo * base)) x, SFeqb (of_integer (hi * base)) x with
      | true, true =>
          if (X - lo * base <? hi * base - X)%Z then (lo, k)
          else if (hi * base - X <? X - lo * base)%Z then (hi, k)
          else if Z.even lo then (lo, k) else (hi, k)
      | true, false => (lo, k)
      | false, true => (hi, k)
      | false, false => shortest x X n ks'
      end
  end.

(** The digits [ds] in the exponent notation: the first digit, the others
    after a point, then [e+] and the exponent. *)
Definition exponent_form (ds : string) (e : Z) : string :=
  match ds with
  | EmptyString => "0"
  | String d EmptyString => String d ("e+" ++ JS.digits e)
  | String d rest => String d ("." ++ rest ++ "e+" ++ JS.digits e)
  end.

(** [Number::toString] of a finite [x] that is at least 10^21. *)
Definition toString_large (x : spec_float) : string :=
  let X := Qfloor (exact x) in
  let n := Z.of_nat (String.length (JS.digits X)) in
  let '(s, k) := shortest x X n (map Z.of_nat (seq 1 17)) in
  if (s =? 10 ^ k)%Z then exponent_form "1" n
  else exponent_form (JS.digits s) (n - 1).

(** [Number.prototype.toFixed(f)], ECMAScript 21.1.3.3: NaN and the
    infinities by name; from 10^21 on the exponent notation of
    [Number::toString]; below, the digits of the mathematical value of the
    number, as [JS.toFixed] gives them. *)
Definition toFixed (f : nat) (x : spec_float) : string :=
  match x with
  | S754_nan => "NaN"
  | S754_infinity s => if s then "-Infinity" else "Infinity"
  | S754_zero _ => JS.toFixed f 0
  | S754_finite s m e =>
      if Qle_bool (inject_Z (10 ^ 21)) (Qabs (exact x))
      then (if s then "-" else "") ++ toString_large (S754_finite false m e)
      else JS.toFixed f (exact x)
  end.


End Binary64.

(** ** [types/index.ts] *)

Record Coordinates := { lat : Q; lng : Q }.

Record VehicleInfo := {
  vehicle_type : string;
  fuel_efficiency_mpg : Q;
  fuel_price_per_gallon : option Q
}.

Record TimeWindow := { start_time : string; end_time : string }.

Record DeliveryStop := {
  address : string;
  time_window : option TimeWindow;
  priority : option Q
}.

Record DeliveryRequest := {
  stops : list DeliveryStop;
  vehicle : VehicleInfo;
  start_location : string;
  avoid_peak_hours : option bool;
  prioritize_safety : option bool
}.

Record RouteSegment := {
  from_address : string;
  to_address : string;
  from_coords : Coordinates;
  to_coords : Coordinates;
  distance_km : Q;
  estimated_time_min : Q;
  risk_score : Q
}.

Record OptimizedRoute := {
  route_id : string;
  ordered_stops : list string;
  coordinates : list Coordinates;
  segments : list RouteSegment;
  total_distance_km : Q;
  total_time_min : Q;
  total_risk_score : Q;
  route_quality_score : Q;
  route_geometry : option (list (list Q))
}.

Record CostBreakdown := {
  estimated_fuel_liters : Q;
  base_fuel_cost : Q;
  traffic_penalty : Q;
  idle_cost : Q;
  stop_penalty : Q
}.

Record CostPrediction := {
  predicted_cost_usd : Q;
  confidence_lower : Q;
  confidence_upper : Q;
  cost_breakdown : CostBreakdown
}.

Inductive RiskLevel := RiskNone | RiskLow | RiskMedium | RiskHigh | RiskCritical.

Record RiskAnalysis := {
  ra_total_risk_score : Q;
  risk_zones_encountered : list string;
  risk_segments : list JS.value;
  risk_level : RiskLevel;
  zones_by_type : list (string * Q)
}.

Record RouteExplanation := {
  summary : string;
  reasoning : string;
  trade_offs_text : string;
  recommendations : string
}.

Record AlternativeRoute := {
  route : OptimizedRoute;
  cost : CostPrediction;
  recommendation : string;
  trade_offs : string
}.

Record RouteResponse := {
  primary_route : OptimizedRoute;
  cost_prediction : CostPrediction;
  risk_analysis : RiskAnalysis;
  alternatives : list AlternativeRoute;
  explanation : option RouteExplanation;
  processing_time_ms : Q
}.

Inductive ZoneType := construction | accident | congestion | crime.

Definition zone_type_string (t : ZoneType) : string :=
  match t with
  | construction => "construction"
  | accident => "accident"
  | congestion => "congestion"
  | crime => "crime"
  end.

Record RiskZone := {
  name : string;
  center : Coordinates;
  radius_km : Q;
  rz_risk_level : Q;
  zone_type : ZoneType
}.

(** Three field names occur in two interfaces of [types/index.ts]; the record
    projections of the later interface carry a prefix or suffix:
    [RiskAnalysis.total_risk_score] is [ra_total_risk_score],
    [RouteExplanation.trade_offs] is [trade_offs_text] and
    [RiskZone.risk_level] is [rz_risk_level]. *)

(** ** The documented threshold table

    In the words of the specification (section 4.5) and of the README:
    at most 3 is low, 4 to 5 is medium, 6 to 7 is high, 8 and above is
    critical. *)
Definition threshold_table (v : Z) : RiskLevel :=
  if (v <=? 3)%Z then RiskLow
  else if (4 <=? v)%Z && (v <=? 5)%Z then RiskMedium
  else if (6 <=? v)%Z && (v <=? 7)%Z then RiskHigh
  else RiskCritical.

(** ** [pages/RiskZones.tsx] *)

Module RiskZonesPage.

Definition ZONES_PER_PAGE : Z := 9.

(** The callback of [riskZones.filter]; [selectedType] is [string | null]
    and both [null] and the empty string are falsy. *)
Definition matchesType (selectedType : option string) (z : RiskZone) : bool :=
  match selectedType with
  | Some t => if JS.truthy t then String.eqb (zone_type_string (zone_type z)) t else true
  | None => true
  end.

Definition matchesSearch (searchQuery : string) (z : RiskZone) : bool :=
  if JS.truthy searchQuery
  then JS.includes (JS.toLowerCase (name z)) (JS.toLowerCase searchQuery)
       || JS.includes (JS.toLowerCase (zone_type_string (zone_type z)))
                      (JS.toLowerCase searchQuery)
  else true.

Definition filteredZones (riskZones : list RiskZone)
  (selectedType : option string) (searchQuery : string) : list RiskZone :=
  filter (fun z => matchesType selectedType z && matchesSearch searchQuery z)
         riskZones.

(** The same filter with the case mapping as a parameter.
    [String.prototype.toLowerCase] applies the Unicode lower-case mapping
    to the whole string, of which [JS.toLowerCase] is the part on the ASCII
    letters; what holds for every mapping holds for the one of the
    engine. *)
Section CaseMapping.

Variable toLowerCase : string -> string.

Definition matchesSearchWith (searchQuery : string) (z : RiskZone) : bool :=
  if JS.truthy searchQuery
  then JS.includes (toLowerCase (name z)) (toLowerCase searchQuery)
       || JS.includes (toLowerCase (zone_type_string (zone_type z)))
                      (toLowerCase searchQuery)
  else true.

Definition filteredZonesWith (riskZones : list RiskZone)
  (selectedType : option string) (searchQuery : string) : list RiskZone :=
  filter (fun z => matchesType selectedType z && matchesSearchWith searchQuery z)
         riskZones.

(** In the words of the claim: [sub] occurs in [s] when [s] is some text,
    then [sub], then some text. *)
Definition occurs_in (sub s : string) : Prop :=
  exists before after : string, s = before ++ sub ++ after.

(** In the words of the claim: the zone matches the active type filter (no
    filter is active for [null] and for the empty string) and holds the
    query, both lowered, in its name or in its zone type. *)
Definition zone_passes (selectedType : option string) (searchQuery : string)
  (z : RiskZone) : Prop :=
  match selectedType with
  | Some (String c t) => zone_type_string (zone_type z) = String c t
  | _ => True
  end
  /\ (occurs_in (toLowerCase searchQuery) (toLowerCase (name z))
      \/ occurs_in (toLowerCase searchQuery)
                   (toLowerCase (zone_type_string (zone_type z)))).

End CaseMapping.

(** [Math.ceil(filteredZones.length / ZONES_PER_PAGE)]. *)
Definition totalPages (filtered : list RiskZone) : Z :=
  Qceiling (inject_Z (Z.of_nat (List.length filtered)) / inject_Z ZONES_PER_PAGE).

Definition paginatedZones (filtered : list RiskZone) (currentPage : Z) : list RiskZone :=
  JS.slice filtered ((currentPage - 1) * ZONES_PER_PAGE) (currentPage * ZONES_PER_PAGE).

(** [Array.from({ length: totalPages }, (_, i) => i + 1)], the numbers on
    the page buttons. *)
Definition pageNumbers (total : Z) : list Z :=
  map (fun i => Z.of_nat i + 1)%Z (seq 0 (Z.to_nat total)).

Definition getRiskLabel (level : Q) : string :=
  if JS.leb level 3 then "Low"
  else if JS.leb level 5 then "Medium"
  else if JS.leb level 7 then "High"
  else "Critical".

Definition getRiskBadgeColor (level : Q) : string :=
  if JS.leb level 3 then "bg-green-500/20 text-green-400"
  else if JS.leb level 5 then "bg-yellow-500/20 text-yellow-400"
  else if JS.leb level 7 then "bg-orange-500/20 text-orange-400"
  else "bg-red-500/20 text-red-400".

(** The label of each bucket of the threshold table. *)
Definition label_of_level (l : RiskLevel) : string :=
  match l with
  | RiskNone => "None"
  | RiskLow => "Low"
  | RiskMedium => "Medium"
  | RiskHigh => "High"
  | RiskCritical => "Critical"
  end.

Definition ZONE_COLORS : list (string * string) :=
  [ ("construction", "#f59e0b"); ("accident", "#ef4444");
    ("congestion", "#fb923c"); ("crime", "#a855f7") ].

Definition color_lookup (k : string) (m : list (string * string)) : option string :=
  option_map snd (find (fun kv => String.eqb (fst kv) k) m).

(** [ZONE_COLORS[zone.zone_type] || '#6b7280']. *)
Definition zoneColor (t : ZoneType) : string :=
  match color_lookup (zone_type_string t) ZONE_COLORS with
  | Some c => if JS.truthy c then c else "#6b7280"
  | None => "#6b7280"
  end.

(** [acc[k] = (acc[k] || 0) + 1] on an object whose keys are kept in the
    order of their insertion. *)
Fixpoint bump (k : string) (acc : list (string * Z)) : list (string * Z) :=
  match acc with
  | [] => [(k, (0 + 1)%Z)]
  | (k', n) :: acc' =>
      if String.eqb k' k
      then (k', ((if (n =? 0)%Z then 0 else n) + 1)%Z) :: acc'
      else (k', n) :: bump k acc'
  end.

(** [zoneCounts], the [reduce] over all zones. *)
Definition zoneCounts (riskZones : list RiskZone) : list (string * Z) :=
  fold_left (fun acc z => bump (zone_type_string (zone_type z)) acc) riskZones [].

(** The sum of the counts of all chips. *)
Fixpoint sum_counts (m : list (string * Z)) : Z :=
  match m with
  | [] => 0%Z
  | (_, n) :: m' => (n + sum_counts m')%Z
  end.

(** The count shown on the chip of a type, if the chip exists. *)
Definition chipCount (k : string) (counts : list (string * Z)) : option Z :=
  option_map snd (find (fun kv => String.eqb (fst kv) k) counts).

(** The three state cells the listing depends on. *)
Record PageState := {
  selectedType : option string;
  searchQuery : string;
  currentPage : Z
}.

Definition initialState : PageState :=
  {| selectedType := None; searchQuery := ""; currentPage := 1 |}.

Definition option_string_eqb (a b : option string) : bool :=
  match a, b with
  | None, None => true
  | Some x, Some y => String.eqb x y
  | _, _ => false
  end.

(** [setSelectedType] and [setSearchQuery], followed by the effect on
    [[selectedType, searchQuery]] that resets the page when one of the two
    changed. *)
Definition setFilter (t : option string) (q : string) (st : PageState) : PageState :=
  if option_string_eqb t (selectedType st) && String.eqb q (searchQuery st)
  then st
  else {| selectedType := t; searchQuery := q; currentPage := 1 |}.

Definition setCurrentPage (p : Z) (st : PageState) : PageState :=
  {| selectedType := selectedType st; searchQuery := searchQuery st;
     currentPage := p |}.

Inductive PageEvent :=
| ClickAll
| ClickType (t : string)
| TypeSearch (q : string)
| ClickPrev
| ClickNext
| ClickPage (page : Z).

(** The handlers of the controls.  A type chip exists for the keys of
    [zoneCounts]; the pagination buttons exist when there is more than one
    page, and the ends are disabled. *)
Definition dispatch (riskZones : list RiskZone) (st : PageState) (e : PageEvent)
  : PageState :=
  let total := totalPages (filteredZones riskZones (selectedType st) (searchQuery st)) in
  match e with
  | ClickAll => setFilter None (searchQuery st) st
  | ClickType t =>
      if existsb (String.eqb t) (map fst (zoneCounts riskZones))
      then setFilter (if option_string_eqb (selectedType st) (Some t)
                      then None else Some t) (searchQuery st) st
      else st
  | TypeSearch q => setFilter (selectedType st) q st
  | ClickPrev =>
      if (1 <? total)%Z && negb (currentPage st =? 1)%Z
      then setCurrentPage (Z.max 1 (currentPage st - 1)) st else st
  | ClickNext =>
      if (1 <? total)%Z && negb (currentPage st =? total)%Z
      then setCurrentPage (Z.min total (currentPage st + 1)) st else st
  | ClickPage page =>
      if (1 <? total)%Z && existsb (Z.eqb page) (pageNumbers total)
      then setCurrentPage page st else st
  end.

Definition run (riskZones : list RiskZone) (es : list PageEvent) : PageState :=
  fold_left (dispatch riskZones) es initialState.

(** The list shown in a state, and whether the "No zones found" card is
    shown in its place. *)
Definition shownZones (riskZones : list RiskZone) (st : PageState) : list RiskZone :=
  paginatedZones (filteredZones riskZones (selectedType st) (searchQuery st))
                 (currentPage st).

Definition noZonesFound (riskZones : list RiskZone) (st : PageState) : bool :=
  Nat.eqb (List.length (shownZones riskZones st)) 0.

(** The current page is one of the existing pages (page 1 when there is
    none). *)
Definition page_in_range (riskZones : list RiskZone) (st : PageState) : Prop :=
  (1 <= currentPage st
   <= Z.max 1 (totalPages (filteredZones riskZones (selectedType st)
                             (searchQuery st))))%Z.

End RiskZonesPage.

(** ** [components/RouteMap.tsx] *)

Module RouteMap.

Definition getRiskColor (riskLevel : Q) : string :=
  if JS.leb riskLevel 3 then "#10b981"
  else if JS.leb riskLevel 5 then "#f59e0b"
  else if JS.leb riskLevel 7 then "#fb923c"
  else "#ef4444".

Definition getZoneColor (zoneType : string) : string :=
  if String.eqb zoneType "construction" then "#f59e0b"
  else if String.eqb zoneType "accident" then "#ef4444"
  else if String.eqb zoneType "congestion" then "#fb923c"
  else if String.eqb zoneType "crime" then "#a855f7"
  else "#6b7280".

(** The colour of each bucket: green, amber, orange and red of the design
    system. *)
Definition color_of_level (l : RiskLevel) : string :=
  match l with
  | RiskNone => "#6b7280"
  | RiskLow => "#10b981"
  | RiskMedium => "#f59e0b"
  | RiskHigh => "#fb923c"
  | RiskCritical => "#ef4444"
  end.

(** The two state cells of the map. *)
Record View := { view_center : Q * Q; view_zoom : Q }.

Definition initialView : View :=
  {| view_center := (253960 # 10000, 683578 # 10000); view_zoom := 12 |}.


Record MarkerView := {
  marker_position : Q * Q;
  marker_number : Z;
  marker_color : string;
  marker_title : string;
  marker_address : option string
}.

(** The start marker; [None] when [route.coordinates[0]] is [undefined]
    and reading its [lat] throws. *)
Definition startMarker (r : OptimizedRoute) : option MarkerView :=
  match coordinates r with
  | c :: _ =>
      Some {| marker_position := (lat c, lng c);
              marker_number := 0;
              marker_color := "#10b981";
              marker_title := "🟢 Start (Depot)";
              marker_address := nth_error (ordered_stops r) 0 |}
  | [] => None
  end.

(** [route.coordinates.slice(1).map((coord, index) => ...)]. *)
Definition deliveryMarkers (r : OptimizedRoute) : list MarkerView :=
  let len := Z.of_nat (List.length (coordinates r)) in
  JS.mapi (fun coord index =>
             let final := (Z.of_nat index =? len - 2)%Z in
             {| marker_position := (lat coord, lng coord);
                marker_number := Z.of_nat index + 1;
                marker_color := if final then "#ef4444" else "#3b82f6";
                marker_title :=
                  if final
                  then "🔴 Final Stop " ++ JS.string_of_int (Z.of_nat index + 1)
                  else "📦 Stop " ++ JS.string_of_int (Z.of_nat index + 1);
                marker_address := nth_error (ordered_stops r) (index + 1) |})
          0 (JS.slice (coordinates r) 1 len).


End RouteMap.

(** ** [components/CostDashboard.tsx] *)

Module CostDashboard.

Definition getRiskLevelColor (level : RiskLevel) : string :=
  match level with
  | RiskLow => "text-success"
  | RiskMedium => "text-warning"
  | RiskHigh => "text-orange-500"
  | RiskCritical => "text-danger"
  | RiskNone => "text-gray-400"
  end.

Definition getRiskLevelBg (level : RiskLevel) : string :=
  match level with
  | RiskLow => "bg-success/20"
  | RiskMedium => "bg-warning/20"
  | RiskHigh => "bg-orange-500/20"
  | RiskCritical => "bg-danger/20"
  | RiskNone => "bg-gray-500/20"
  end.

Definition RISK_COLORS : list (string * string) :=
  [ ("Construction", "#f59e0b"); ("Accident", "#ef4444");
    ("Congestion", "#fb923c"); ("Crime", "#a855f7") ].

(** [Object.entries(risk.zones_by_type || {}).map(...)]: the slices of the
    pie chart. *)
Definition riskZoneData (risk : RiskAnalysis) : list (string * Q) :=
  map (fun kv => (JS.capitalize (fst kv), snd kv)) (zones_by_type risk).

(** [RISK_COLORS[entry.name] || '#6b7280'], the fill of a slice. *)
Definition cellColor (entry_name : string) : string :=
  match option_map snd (find (fun kv => String.eqb (fst kv) entry_name) RISK_COLORS) with
  | Some c => if JS.truthy c then c else "#6b7280"
  | None => "#6b7280"
  end.

End CostDashboard.

(** ** [components/RouteComparison.tsx] *)

Module RouteComparison.

Record PrimaryRoute := {
  pr_distance : Q;
  pr_time : Q;
  pr_cost : Q;
  pr_risk : Q
}.

Definition getRiskColor (risk : Q) : string :=
  if JS.ltb risk 2 then "text-success"
  else if JS.ltb risk 5 then "text-warning"
  else if JS.ltb risk 7 then "text-orange-500"
  else "text-danger".

Definition calculateSavings (primaryRoute : PrimaryRoute) (altCost : Q) : string :=
  let diff := (pr_cost primaryRoute - altCost)%Q in
  if JS.ltb 0 diff then "Save Rs. " ++ JS.toFixed 0 (Qabs diff)
  else if JS.ltb diff 0 then "+Rs. " ++ JS.toFixed 0 (Qabs diff) ++ " more"
  else "Same cost".

Definition names : list string :=
  ["Shortest Distance"; "Safest Route"; "Off-Peak Schedule"].

(** [names[index] || `Alternative ${index + 1}`]: an index past the end
    reads [undefined], which is falsy like the empty string. *)
Definition getAlternativeName (index : nat) : string :=
  let fallback := "Alternative " ++ JS.string_of_int (Z.of_nat index + 1) in
  match nth_error names index with
  | Some n => if JS.truthy n then n else fallback
  | None => fallback
  end.

(** [lowerIsBetter] has the default value [false] in the source; a call
    with three arguments is [getDifferenceText p a u false]. *)
Definition getDifferenceText (primary alternative : Q) (unit : string)
  (lowerIsBetter : bool) : string :=
  let diff := (alternative - primary)%Q in
  let absDiff := Qabs diff in
  if JS.ltb (Qabs diff) (1 # 100) then "Same"
  else
    let isWorse := if lowerIsBetter then JS.ltb 0 diff else JS.ltb 0 diff in
    let prefix := if isWorse then "+" else "" in
    prefix ++ JS.toFixed 1 absDiff ++ unit.

(** The heading of the card of the alternative at position [index]. *)
Definition heading (alt : AlternativeRoute) (index : nat) : string :=
  if Nat.ltb 0 (List.length (ordered_stops (route alt)))
  then getAlternativeName index
  else recommendation alt.

(** [alternatives.map((alt, index) => ...)], restricted to the heading. *)
Definition headings (alternatives : list AlternativeRoute) : list string :=
  JS.mapi heading 0 alternatives.

(** The three weighting policies of the alternative generator, in their
    canonical order (specification, section 4.6). *)
Inductive Policy := DistanceOnly | SafetyFirst | OffPeak.

Definition canonical_policies : list Policy := [DistanceOnly; SafetyFirst; OffPeak].

Definition policy_label (p : Policy) : string :=
  match p with
  | DistanceOnly => "Shortest Distance"
  | SafetyFirst => "Safest Route"
  | OffPeak => "Off-Peak Schedule"
  end.



End RouteComparison.

(** [getDifferenceText] on the numbers of the engine: [alternative - primary]
    is the rounded difference, [Math.abs] clears the sign, [<] and [>] are
    the comparisons of the format ([diff > 0] is [0 < diff]) and [toFixed]
    is [Binary64.toFixed].  [RouteComparison.getDifferenceText] is the same
    function read on exact rationals. *)
Module RouteComparison64.

Definition getDifferenceText (primary alternative : spec_float) (unit : string)
  (lowerIsBetter : bool) : string :=
  let diff := Binary64.sub alternative primary in
  let absDiff := SFabs diff in
  if SFltb (SFabs diff) Binary64.lit_0_01 then "Same"
  else
    let isWorse := if lowerIsBetter then SFltb Binary64.zero diff
                   else SFltb Binary64.zero diff in
    let prefix := if isWorse then "+" else "" in
    prefix ++ Binary64.toFixed 1 absDiff ++ unit.

End RouteComparison64.

(** ** [components/DeliveryForm.tsx]

    Both variants of the component hold the same six [useState] cells.  The
    cell [stops] is the projection [form_stops] ([stops] is the field of
    [DeliveryRequest]). *)

Record FormState := {
  startLocation : string;
  form_stops : list DeliveryStop;
  vehicleType : string;
  fuelEfficiency : Q;
  avoidPeakHours : bool;
  prioritizeSafety : bool
}.

Definition setStops (l : list DeliveryStop) (st : FormState) : FormState :=
  {| startLocation := startLocation st; form_stops := l;
     vehicleType := vehicleType st; fuelEfficiency := fuelEfficiency st;
     avoidPeakHours := avoidPeakHours st; prioritizeSafety := prioritizeSafety st |}.

Definition setStartLocation (s : string) (st : FormState) : FormState :=
  {| startLocation := s; form_stops := form_stops st;
     vehicleType := vehicleType st; fuelEfficiency := fuelEfficiency st;
     avoidPeakHours := avoidPeakHours st; prioritizeSafety := prioritizeSafety st |}.

Definition setVehicleType (v : string) (st : FormState) : FormState :=
  {| startLocation := startLocation st; form_stops := form_stops st;
     vehicleType := v; fuelEfficiency := fuelEfficiency st;
     avoidPeakHours := avoidPeakHours st; prioritizeSafety := prioritizeSafety st |}.

Definition setFuelEfficiency (q : Q) (st : FormState) : FormState :=
  {| startLocation := startLocation st; form_stops := form_stops st;
     vehicleType := vehicleType st; fuelEfficiency := q;
     avoidPeakHours := avoidPeakHours st; prioritizeSafety := prioritizeSafety st |}.

Definition setAvoidPeakHours (b : bool) (st : FormState) : FormState :=
  {| startLocation := startLocation st; form_stops := form_stops st;
     vehicleType := vehicleType st; fuelEfficiency := fuelEfficiency st;
     avoidPeakHours := b; prioritizeSafety := prioritizeSafety st |}.

Definition setPrioritizeSafety (b : bool) (st : FormState) : FormState :=
  {| startLocation := startLocation st; form_stops := form_stops st;
     vehicleType := vehicleType st; fuelEfficiency := fuelEfficiency st;
     avoidPeakHours := avoidPeakHours st; prioritizeSafety := b |}.

(** The handlers wired to the form's controls. *)
Inductive event : Type :=
| AddStop : event
| RemoveStop (index : Z) : event
| UpdateStop (index : Z) (addr : string) : event
| ChangeStartLocation (s : string) : event
| ChangeVehicleType (v : string) : event
| ChangeFuelEfficiency (q : Q) : event
| ChangeAvoidPeakHours (b : bool) : event
| ChangePrioritizeSafety (b : bool) : event.

(** [a[index].address = address] on a copy of the array: [None] when
    [a[index]] is [undefined], where the assignment throws a [TypeError]. *)
Fixpoint assign_address (a : list DeliveryStop) (index : nat) (addr : string)
  : option (list DeliveryStop) :=
  match a, index with
  | [], _ => None
  | s :: a', O =>
      Some ({| address := addr; time_window := time_window s;
               priority := priority s |} :: a')
  | s :: a', S i =>
      match assign_address a' i addr with
      | Some r => Some (s :: r)
      | None => None
      end
  end.

(** The invariant of the form: there is a stop. *)
Definition has_stop (st : FormState) : Prop :=
  (1 <= List.length (form_stops st))%nat.

(** The first variant. *)
Module DeliveryForm.

Definition initial : FormState :=
  {| startLocation := "Saddar, Hyderabad, Sindh, Pakistan";
     form_stops := [ {| address := "Latifabad, Hyderabad, Sindh, Pakistan";
                        time_window := None; priority := Some 1 |} ];
     vehicleType := "van";
     fuelEfficiency := 22;
     avoidPeakHours := true;
     prioritizeSafety := false |}.

Definition addStop (st : FormState) : FormState :=
  setStops (form_stops st ++ [ {| address := ""; time_window := None;
                                  priority := Some 1 |} ]) st.

Definition removeStop (index : Z) (st : FormState) : FormState :=
  if Nat.ltb 1 (List.length (form_stops st))
  then setStops (JS.filteri (fun _ i => negb (Z.of_nat i =? index)%Z) 0
                            (form_stops st)) st
  else st.

(** [None]: the handler threw before [setStops]. *)
Definition updateStop (index : Z) (addr : string) (st : FormState) : option FormState :=
  if (index <? 0)%Z then None
  else match assign_address (form_stops st) (Z.to_nat index) addr with
       | Some newStops => Some (setStops newStops st)
       | None => None
       end.

(** The request handed to [onSubmit]. *)
Definition handleSubmit (st : FormState) : DeliveryRequest :=
  let vehicle := {| vehicle_type := vehicleType st;
                    fuel_efficiency_mpg := fuelEfficiency st;
                    fuel_price_per_gallon := None |} in
  {| stops := form_stops st;
     vehicle := vehicle;
     start_location := startLocation st;
     avoid_peak_hours := Some (avoidPeakHours st);
     prioritize_safety := Some (prioritizeSafety st) |}.

(** One event of the user interface; a handler that throws leaves the
    state as it was. *)
Definition dispatch (st : FormState) (e : event) : FormState :=
  match e with
  | AddStop => addStop st
  | RemoveStop i => removeStop i st
  | UpdateStop i a => match updateStop i a st with Some st' => st' | None => st end
  | ChangeStartLocation s => setStartLocation s st
  | ChangeVehicleType v => setVehicleType v st
  | ChangeFuelEfficiency q => setFuelEfficiency q st
  | ChangeAvoidPeakHours b => setAvoidPeakHours b st
  | ChangePrioritizeSafety b => setPrioritizeSafety b st
  end.

Definition run (es : list event) : FormState := fold_left dispatch es initial.

End DeliveryForm.

(** The second variant: the [errors] property and the effect that follows
    the vehicle type. *)
Module DeliveryFormV2.

Definition initial : FormState :=
  {| startLocation := "Saddar, Hyderabad, Sindh, Pakistan";
     form_stops := [ {| address := "Latifabad, Hyderabad, Sindh, Pakistan";
                        time_window := None; priority := Some 1 |} ];
     vehicleType := "van";
     fuelEfficiency := 22;
     avoidPeakHours := true;
     prioritizeSafety := false |}.

Definition defaults : list (string * Q) :=
  [ ("car", 25); ("van", 18); ("truck", 8); ("motorcycle", 50);
    ("scooter", 45); ("mini-truck", 15) ].

Definition lookup (k : string) (m : list (string * Q)) : option Q :=
  option_map snd (find (fun kv => String.eqb (fst kv) k) m).

(** The body of [React.useEffect(..., [vehicleType])]; a number is truthy
    when it is not zero. *)
Definition vehicleTypeEffect (st : FormState) : FormState :=
  match lookup (vehicleType st) defaults with
  | Some d => if Qeq_bool d 0 then st else setFuelEfficiency d st
  | None => st
  end.

(** The state once the component is mounted: the effect has run once. *)
Definition mounted : FormState := vehicleTypeEffect initial.

Definition addStop (st : FormState) : FormState :=
  setStops (form_stops st ++ [ {| address := ""; time_window := None;
                                  priority := Some 1 |} ]) st.

Definition removeStop (index : Z) (st : FormState) : FormState :=
  if Nat.ltb 1 (List.length (form_stops st))
  then setStops (JS.filteri (fun _ i => negb (Z.of_nat i =? index)%Z) 0
                            (form_stops st)) st
  else st.

Definition updateStop (index : Z) (addr : string) (st : FormState) : option FormState :=
  if (index <? 0)%Z then None
  else match assign_address (form_stops st) (Z.to_nat index) addr with
       | Some newStops => Some (setStops newStops st)
       | None => None
       end.

Definition handleSubmit (st : FormState) : DeliveryRequest :=
  let vehicle := {| vehicle_type := vehicleType st;
                    fuel_efficiency_mpg := fuelEfficiency st;
                    fuel_price_per_gallon := None |} in
  {| stops := form_stops st;
     vehicle := vehicle;
     start_location := startLocation st;
     avoid_peak_hours := Some (avoidPeakHours st);
     prioritize_safety := Some (prioritizeSafety st) |}.

(** The effect runs again when the vehicle type has changed. *)
Definition dispatch (st : FormState) (e : event) : FormState :=
  match e with
  | AddStop => addStop st
  | RemoveStop i => removeStop i st
  | UpdateStop i a => match updateStop i a st with Some st' => st' | None => st end
  | ChangeStartLocation s => setStartLocation s st
  | ChangeVehicleType v =>
      if String.eqb v (vehicleType st) then st
      else vehicleTypeEffect (setVehicleType v st)
  | ChangeFuelEfficiency q => setFuelEfficiency q st
  | ChangeAvoidPeakHours b => setAvoidPeakHours b st
  | ChangePrioritizeSafety b => setPrioritizeSafety b st
  end.

Definition run (es : list event) : FormState := fold_left dispatch es mounted.

End DeliveryFormV2.

(** The user never edits the fuel-efficiency field. *)
Definition no_fuel_edit (es : list event) : bool :=
  forallb (fun e => match e with
                    | ChangeFuelEfficiency _ => false
                    | _ => true
                    end) es.

(** The fuel efficiency is the default of the vehicle type, when the type
    has one. *)
Definition follows_defaults (st : FormState) : Prop :=
  match DeliveryFormV2.lookup (vehicleType st) DeliveryFormV2.defaults with
  | Some d => fuelEfficiency st = d
  | None => True
  end.

(** [a[index]] with its address replaced. *)
Definition with_address (addr : string) (s : DeliveryStop) : DeliveryStop :=
  {| address := addr; time_window := time_window s; priority := priority s |}.

(** ** [pages/Optimizer.tsx] *)

Module Optimizer.

(** [JSON.stringify] on JSON values. *)
Definition dquote : string := String (ascii_of_nat 34) EmptyString.

Definition hex_digit (n : nat) : ascii :=
  ascii_of_nat (if Nat.ltb n 10 then 48 + n else 87 + n).

Definition escape_char (c : ascii) : string :=
  let n := nat_of_ascii c in
  if Nat.eqb n 34 then String (ascii_of_nat 92) dquote
  else if Nat.eqb n 92 then String (ascii_of_nat 92) (String (ascii_of_nat 92) EmptyString)
  else if Nat.eqb n 8 then String (ascii_of_nat 92) "b"
  else if Nat.eqb n 12 then String (ascii_of_nat 92) "f"
  else if Nat.eqb n 10 then String (ascii_of_nat 92) "n"
  else if Nat.eqb n 13 then String (ascii_of_nat 92) "r"
  else if Nat.eqb n 9 then String (ascii_of_nat 92) "t"
  else if Nat.ltb n 32
       then String (ascii_of_nat 92)
              ("u00" ++ String (hex_digit (n / 16)) (String (hex_digit (n mod 16)) EmptyString))
  else String c EmptyString.

Fixpoint escape (s : string) : string :=
  match s with
  | EmptyString => EmptyString
  | String c s' => escape_char c ++ escape s'
  end.

Definition quote (s : string) : string := dquote ++ escape s ++ dquote.

Fixpoint stringify (v : JS.value) : string :=
  match v with
  | JS.VNull => "null"
  | JS.VBool true => "true"
  | JS.VBool false => "false"
  | JS.VNum z => JS.string_of_int z
  | JS.VStr s => quote s
  | JS.VArr l => "[" ++ JS.join "," (map stringify l) ++ "]"
  | JS.VObj l =>
      "{" ++ JS.join "," (map (fun kv => quote (fst kv) ++ ":" ++
                                  (let (_, w) := kv in stringify w)) l) ++ "}"
  end.

(** An item of a location path: a field name or an array index. *)
Inductive LocPart :=
| LocName (s : string)
| LocIndex (i : Z).

Definition loc_string (p : LocPart) : string :=
  match p with
  | LocName s => s
  | LocIndex i => JS.string_of_int i
  end.

(** One validation error of the response body; [loc] may be missing. *)
Record ValidationError := { loc : option (list LocPart); msg : string }.

(** A [detail] that is neither an array nor a string. *)
Inductive OtherDetail :=
| ONull
| OBool (b : bool)
| ONum (z : Z)
| OObj (fields : list (string * JS.value)).

Definition other_value (o : OtherDetail) : JS.value :=
  match o with
  | ONull => JS.VNull
  | OBool b => JS.VBool b
  | ONum z => JS.VNum z
  | OObj l => JS.VObj l
  end.

Inductive Detail :=
| DetailArray (errors : list ValidationError)
| DetailString (s : string)
| DetailOther (o : OtherDetail).

(** Truthiness of [detail]: arrays and objects are truthy. *)
Definition detail_truthy (d : Detail) : bool :=
  match d with
  | DetailArray _ => true
  | DetailString s => JS.truthy s
  | DetailOther ONull => false
  | DetailOther (OBool b) => b
  | DetailOther (ONum z) => negb (z =? 0)%Z
  | DetailOther (OObj _) => true
  end.

Record ResponseData := { detail : option Detail }.
Record HttpResponse := { data : option ResponseData }.

(** The value caught by [catch (err: any)]. *)
Record RequestError := {
  response : option HttpResponse;
  message : option string
}.

(** [err.response?.data?.detail]. *)
Definition response_detail (err : RequestError) : option Detail :=
  match response err with
  | Some r => match data r with
              | Some d => detail d
              | None => None
              end
  | None => None
  end.

Definition arrow : string := " → ".

(** [`${e.loc?.join(' → ') || 'Field'}: ${e.msg}`]. *)
Definition render (e : ValidationError) : string :=
  let path := match loc e with
              | Some l => let j := JS.join arrow (map loc_string l) in
                          if JS.truthy j then j else "Field"
              | None => "Field"
              end in
  path ++ ": " ++ msg e.

Definition default_message : string :=
  "Failed to optimize route. Please check your inputs and try again.".

(** The body of the [catch] block up to [setError]. *)
Definition errorMessage (err : RequestError) : string :=
  let fallback := match message err with
                  | Some m => if JS.truthy m then m else default_message
                  | None => default_message
                  end in
  match response_detail err with
  | Some d =>
      if detail_truthy d then
        match d with
        | DetailArray l => JS.join "; " (map render l)
        | DetailString s => s
        | DetailOther o => stringify (other_value o)
        end
      else fallback
  | None => fallback
  end.

Record State := {
  isLoading : bool;
  error : option string;
  result : option RouteResponse
}.

Definition setIsLoading (b : bool) (st : State) : State :=
  {| isLoading := b; error := error st; result := result st |}.
Definition setError (e : option string) (st : State) : State :=
  {| isLoading := isLoading st; error := e; result := result st |}.
Definition setResult (r : option RouteResponse) (st : State) : State :=
  {| isLoading := isLoading st; error := error st; result := r |}.

(** How the awaited [optimizeRoute(request)] settles. *)
Inductive Outcome :=
| Resolved (r : RouteResponse)
| Rejected (err : RequestError).

(** [handleOptimize], as a function of how the request settles. *)
Definition handleOptimize (o : Outcome) (st : State) : State :=
  let st := setIsLoading true st in
  let st := setError None st in
  let st := setResult None st in
  let st := match o with
            | Resolved r => setResult (Some r) st
            | Rejected err => setError (Some (errorMessage err)) st
            end in
  setIsLoading false st.

(** The text of one validation error in the words of the amended claim,
    independently of [render]: the location path joined with the arrow when
    that is a non-empty string, and the word Field when the path is missing
    or joins to the empty string; then a colon, a blank and the message. *)
Inductive entry_text_spec (e : ValidationError) : string -> Prop :=
| entry_named (p : list LocPart) :
    loc e = Some p ->
    JS.join " → " (map loc_string p) <> "" ->
    entry_text_spec e (JS.join " → " (map loc_string p) ++ ": " ++ msg e)
| entry_unnamed_missing :
    loc e = None ->
    entry_text_spec e ("Field: " ++ msg e)
| entry_unnamed_empty (p : list LocPart) :
    loc e = Some p ->
    JS.join " → " (map loc_string p) = "" ->
    entry_text_spec e ("Field: " ++ msg e).

(** The state of a freshly mounted page. *)
Definition initial : State :=
  {| isLoading := false; error := None; result := None |}.

(** A rejection whose [detail] is the empty array. *)
Definition empty_array_rejection : RequestError :=
  {| response := Some {| data := Some {| detail := Some (DetailArray []) |} |};
     message := Some "Request failed with status code 422" |}.

(** A rejection whose [detail] is the empty string. *)
Definition empty_string_rejection : RequestError :=
  {| response := Some {| data := Some {| detail := Some (DetailString "") |} |};
     message := Some "Request failed with status code 400" |}.

(** A rejection with one validation error whose location path is empty. *)
Definition empty_path_rejection : RequestError :=
  {| response := Some {| data := Some {| detail :=
       Some (DetailArray [ {| loc := Some []; msg := "value is not valid" |} ]) |} |};
     message := Some "Request failed with status code 422" |}.


(** [{error && (...)}], [{result && (...)}] and [{isLoading && (...)}]. *)
Definition bannerVisible (st : State) : bool :=
  match error st with
  | Some s => JS.truthy s
  | None => false
  end.

Definition resultsVisible (st : State) : bool :=
  match result st with
  | Some _ => true
  | None => false
  end.

End Optimizer.

(** ** The decision engine behind [POST /api/optimize]

    The engine is the Python back end of the repository; the front end
    holds only its declarations ([types/index.ts]) and its caller
    ([optimizeRoute] in [services/api.ts]).  The definitions of this module
    follow the specification, sections 3 to 7.  What the specification
    leaves to collaborators or to configuration (geocoder, distance
    provider, traffic and risk factors, trained ensemble, rates and
    constants) is a field of [Env]. *)

Module Core.

Local Open Scope Q_scope.

Definition Qltb (x y : Q) : bool := negb (Qle_bool y x).

Fixpoint Qsum (l : list Q) : Q :=
  match l with
  | [] => 0
  | x :: l' => x + Qsum l'
  end.

(** *** Cost Predictor (section 4.4) *)

Record Features := {
  total_distance : Q;
  stop_count : Q;
  average_speed : Q;
  traffic_factor : Q;
  vehicle_efficiency : Q;
  idle_minutes : Q
}.

Record CostConfig := {
  unit_price : Q;
  idle_rate : Q;
  stop_cost : Q;
  z95 : Q;
  fallback_ratio : Q;
  ensemble : option (list (Features -> Q))
}.

(** Modelled from the spec: the itemized breakdown of section 4.4; the back
    end's cost predictor is not among the sources.  Base fuel cost is
    distance / efficiency x unit price, the traffic penalty is the
    surcharge proportional to the traffic factor, idle cost is idle minutes
    x idle rate, the stop penalty is the fixed cost x stop count. *)
Definition formula_breakdown (cfg : CostConfig) (f : Features) : CostBreakdown :=
  let fuel := total_distance f / vehicle_efficiency f in
  let base := fuel * unit_price cfg in
  {| estimated_fuel_liters := fuel;
     base_fuel_cost := base;
     traffic_penalty := base * (traffic_factor f - 1);
     idle_cost := idle_minutes f * idle_rate cfg;
     stop_penalty := stop_cost cfg * stop_count f |}.

Definition breakdown_sum (b : CostBreakdown) : Q :=
  base_fuel_cost b + traffic_penalty b + idle_cost b + stop_penalty b.

Definition scale_breakdown (k : Q) (b : CostBreakdown) : CostBreakdown :=
  {| estimated_fuel_liters := estimated_fuel_liters b;
     base_fuel_cost := k * base_fuel_cost b;
     traffic_penalty := k * traffic_penalty b;
     idle_cost := k * idle_cost b;
     stop_penalty := k * stop_penalty b |}.

Definition mean (l : list Q) : Q := Qsum l / inject_Z (Z.of_nat (List.length l)).

Definition variance (l : list Q) : Q :=
  let m := mean l in
  mean (map (fun x => (x - m) * (x - m)) l).

(** A rational upper approximation of the square root, to three decimals. *)
Definition sqrt_up (q : Q) : Q :=
  inject_Z (Z.sqrt_up (Qceiling (q * 1000000))) / 1000.

(** Modelled from the spec: the cost predictor of section 4.4, absent from
    the sources.  With a trained ensemble the point estimate is the mean of
    the estimators and the interval is the estimate minus and plus [z95]
    standard deviations of the estimators (the interval derived from the
    estimator variance); the breakdown is scaled so that it sums to the
    estimate.  Without the artifact the estimate is the sum of the
    formulas and the interval is the flagged band of [fallback_ratio]
    around it.  The second component is the fallback flag. *)
Definition predict_cost (cfg : CostConfig) (f : Features) : CostPrediction * bool :=
  let b := formula_breakdown cfg f in
  let formula := breakdown_sum b in
  match ensemble cfg with
  | Some (e :: es) =>
      let preds := map (fun est => est f) (e :: es) in
      let p := mean preds in
      let half := z95 cfg * sqrt_up (variance preds) in
      ({| predicted_cost_usd := p;
          confidence_lower := p - half;
          confidence_upper := p + half;
          cost_breakdown := if Qeq_bool formula 0 then b
                            else scale_breakdown (p / formula) b |}, false)
  | _ =>
      let half := fallback_ratio cfg * Qabs formula in
      ({| predicted_cost_usd := formula;
          confidence_lower := formula - half;
          confidence_upper := formula + half;
          cost_breakdown := b |}, true)
  end.

(** *** Graph Builder (section 4.2) *)

Record Env := {
  geocode : string -> option Coordinates;
  distance : Coordinates -> Coordinates -> Q;
  travel_time : Coordinates -> Coordinates -> Q;
  peak_factor : bool -> Coordinates -> Coordinates -> Q;
  zone_factor : bool -> Coordinates -> Coordinates -> Q;
  risk_contribution : Coordinates -> Coordinates -> Q;
  min_weight : Q;
  window_penalty : list nat -> Q;
  budget : nat;
  quality : Q -> Q -> Q -> Q;
  idle_per_stop : Q;
  analyze_risk : OptimizedRoute -> RiskAnalysis;
  trade_off_note : OptimizedRoute -> CostPrediction -> OptimizedRoute -> CostPrediction -> string;
  explain : option RouteExplanation;
  elapsed_ms : Q;
  cost_config : CostConfig
}.

(** The weighting policy of one solve: the alternative generator forces the
    factors to 1 (distance only) or forces one of the flags. *)
Record Weighting := {
  use_factors : bool;
  w_avoid_peak : bool;
  w_prioritize_safety : bool
}.

Definition coord_eqb (a b : Coordinates) : bool :=
  Qeq_bool (lat a) (lat b) && Qeq_bool (lng a) (lng b).

Fixpoint distinct (l : list Coordinates) : list Coordinates :=
  match l with
  | [] => []
  | c :: l' => if existsb (coord_eqb c) l' then distinct l' else c :: distinct l'
  end.

Definition origin : Coordinates := {| lat := 0; lng := 0 |}.

(** Modelled from the spec: the composite edge weight of section 4.2,
    distance x traffic factor x risk factor, with the floor weight on
    zero-distance edges; the graph builder is absent from the sources. *)
Definition edge_weight (E : Env) (wt : Weighting) (pts : list Coordinates)
  (i j : nat) : Q :=
  let a := nth i pts origin in
  let b := nth j pts origin in
  let d := distance E a b in
  let tf := if use_factors wt then peak_factor E (w_avoid_peak wt) a b else 1 in
  let rf := if use_factors wt then zone_factor E (w_prioritize_safety wt) a b else 1 in
  if Qle_bool d 0 then min_weight E else d * tf * rf.

(** *** Route Solver (section 4.3) *)

Fixpoint path_weight (w : nat -> nat -> Q) (t : list nat) : Q :=
  match t with
  | a :: ((b :: _) as t') => w a b + path_weight w t'
  | _ => 0
  end.

Definition objective (E : Env) (w : nat -> nat -> Q) (t : list nat) : Q :=
  path_weight w t + window_penalty E t.

(** Modelled from the spec: the choice of the construction heuristic of
    section 4.3 (the solver is absent from the sources).  The unvisited
    stop nearest to [cur]; on equal weight the earlier candidate stays. *)
Fixpoint nearest (w : nat -> nat -> Q) (cur best : nat) (cands : list nat) : nat :=
  match cands with
  | [] => best
  | c :: cs => if Qltb (w cur c) (w cur best) then nearest w cur c cs
               else nearest w cur best cs
  end.

Fixpoint remove_first (x : nat) (l : list nat) : list nat :=
  match l with
  | [] => []
  | y :: l' => if Nat.eqb x y then l' else y :: remove_first x l'
  end.

(** Modelled from the spec: CONSTRUCT of section 4.3 (the solver is absent
    from the sources), the nearest-neighbour tour from [cur] through
    [unvisited]. *)
Fixpoint construct (w : nat -> nat -> Q) (fuel : nat) (cur : nat)
  (unvisited : list nat) : list nat :=
  match fuel, unvisited with
  | S fuel', c :: cs =>
      let nxt := nearest w cur c cs in
      nxt :: construct w fuel' nxt (remove_first nxt unvisited)
  | _, _ => []
  end.

(** A 2-opt move: the [k] stops from position [i] on are reversed. *)
Definition two_opt_move (t : list nat) (i k : nat) : list nat :=
  firstn i t ++ rev (firstn k (skipn i t)) ++ skipn k (skipn i t).

Definition moves (n : nat) : list (nat * nat) :=
  filter (fun ik => Nat.leb (fst ik + snd ik) n)
         (list_prod (seq 1 (n - 1)) (seq 2 (n - 1))).

(** The first strictly improving move of a pass, if any. *)
Definition improve_step (E : Env) (w : nat -> nat -> Q) (t : list nat)
  : option (list nat) :=
  option_map (fun ik => two_opt_move t (fst ik) (snd ik))
    (find (fun ik => Qltb (objective E w (two_opt_move t (fst ik) (snd ik)))
                          (objective E w t))
          (moves (List.length t))).

(** Modelled from the spec: IMPROVE of section 4.3 (the solver is absent
    from the sources), local search within the iteration budget.  The flag
    is [true] on TIMEOUT, when the budget ran out before a local optimum. *)
Fixpoint improve (E : Env) (w : nat -> nat -> Q) (fuel : nat) (t : list nat)
  : list nat * bool :=
  match fuel with
  | O => (t, true)
  | S fuel' =>
      match improve_step E w t with
      | Some t' => improve E w fuel' t'
      | None => (t, false)
      end
  end.

Fixpoint list_eqb (a b : list nat) : bool :=
  match a, b with
  | [], [] => true
  | x :: a', y :: b' => Nat.eqb x y && list_eqb a' b'
  | _, _ => false
  end.

(** Modelled from the spec: the route solver of section 4.3, absent from
    the sources: INIT, CONSTRUCT (nearest neighbour from the depot, index
    0), IMPROVE (2-opt within the budget), then DONE or TIMEOUT.  The
    result is the ordering of the stop indices [0 .. n] and the
    [suboptimal] flag, raised on timeout or when the search did not improve
    on the construction. *)
Definition solve (E : Env) (w : nat -> nat -> Q) (n : nat) : list nat * bool :=
  let t0 := (0 :: construct w n 0 (seq 1 n))%nat in
  let (t, timeout) := improve E w (budget E) t0 in
  (t, timeout || list_eqb t t0).

(** *** Assembling the route record *)

(** Modelled from the spec: the per-edge segments of a route (section 3;
    the route assembly is absent from the sources), one for each pair of
    consecutive stops of the ordering. *)
Fixpoint segments_of (E : Env) (addrs : list string) (pts : list Coordinates)
  (t : list nat) : list RouteSegment :=
  match t with
  | a :: ((b :: _) as t') =>
      let ca := nth a pts origin in
      let cb := nth b pts origin in
      {| from_address := nth a addrs "";
         to_address := nth b addrs "";
         from_coords := ca;
         to_coords := cb;
         distance_km := distance E ca cb;
         estimated_time_min := travel_time E ca cb;
         risk_score := risk_contribution E ca cb |} :: segments_of E addrs pts t'
  | _ => []
  end.

Definition clamp (lo hi x : Q) : Q :=
  if Qle_bool x lo then lo else if Qle_bool hi x then hi else x.

(** Modelled from the spec: the [OptimizedRoute] of an ordering (section 3;
    absent from the sources): the stops in visiting order, the segments,
    the totals, the risk score clamped to the 0-10 scale and the derived
    quality score. *)
Definition build_route (E : Env) (id : string) (addrs : list string)
  (pts : list Coordinates) (t : list nat) : OptimizedRoute :=
  let segs := segments_of E addrs pts t in
  let d := Qsum (map distance_km segs) in
  let tm := Qsum (map estimated_time_min segs) in
  let rk := clamp 0 10 (Qsum (map risk_score segs)) in
  {| route_id := id;
     ordered_stops := map (fun i => nth i addrs "") t;
     coordinates := map (fun i => nth i pts origin) t;
     segments := segs;
     total_distance_km := d;
     total_time_min := tm;
     total_risk_score := rk;
     route_quality_score := quality E d tm rk;
     route_geometry := None |}.

(** Modelled from the spec: the feature vector of a solved route (section
    4.4; absent from the sources). *)
Definition features_of (E : Env) (wt : Weighting) (v : VehicleInfo)
  (r : OptimizedRoute) : Features :=
  let n := inject_Z (Z.of_nat (List.length (segments r))) in
  {| total_distance := total_distance_km r;
     stop_count := n;
     average_speed := total_distance_km r / (total_time_min r / 60);
     traffic_factor :=
       if use_factors wt
       then mean (map (fun s => peak_factor E (w_avoid_peak wt)
                                  (from_coords s) (to_coords s)) (segments r))
       else 1;
     vehicle_efficiency := fuel_efficiency_mpg v;
     idle_minutes := idle_per_stop E * n |}.

(** The unit price of the request overrides the configured one. *)
Definition priced (cfg : CostConfig) (v : VehicleInfo) : CostConfig :=
  match fuel_price_per_gallon v with
  | Some p => {| unit_price := p; idle_rate := idle_rate cfg;
                 stop_cost := stop_cost cfg; z95 := z95 cfg;
                 fallback_ratio := fallback_ratio cfg; ensemble := ensemble cfg |}
  | None => cfg
  end.

Record Solved := {
  s_route : OptimizedRoute;
  s_cost : CostPrediction;
  s_suboptimal : bool;
  s_fallback : bool
}.

(** Modelled from the spec: Graph Builder, Route Solver and Cost Predictor
    under one weighting (sections 4.2 to 4.4; absent from the sources). *)
Definition run_policy (E : Env) (wt : Weighting) (id : string)
  (v : VehicleInfo) (addrs : list string) (pts : list Coordinates) : Solved :=
  let w := edge_weight E wt pts in
  let (t, sub) := solve E w (List.length pts - 1) in
  let r := build_route E id addrs pts t in
  let (c, fb) := predict_cost (priced (cost_config E) v) (features_of E wt v r) in
  {| s_route := r; s_cost := c; s_suboptimal := sub; s_fallback := fb |}.

(** *** Errors (section 7) and the optimize operation *)

Inductive Error :=
| AddressResolutionError (addr : string)
| DegenerateGraphError
| InvalidVehicleProfile.

Inductive Result (A : Type) :=
| Ok (a : A)
| Err (e : Error).
Arguments Ok {A} a.
Arguments Err {A} e.

Fixpoint resolve_all (E : Env) (addrs : list string) : Result (list Coordinates) :=
  match addrs with
  | [] => Ok []
  | a :: rest =>
      match geocode E a with
      | None => Err (AddressResolutionError a)
      | Some c => match resolve_all E rest with
                  | Ok cs => Ok (c :: cs)
                  | Err e => Err e
                  end
      end
  end.

Definition flag (o : option bool) : bool :=
  match o with
  | Some b => b
  | None => false
  end.

(** Modelled from the spec: the three policies of the alternative generator
    (section 4.6; absent from the sources): distance only, safety first,
    off-peak, in this order. *)
Definition policies (req : DeliveryRequest) : list (Weighting * string * string) :=
  [ ({| use_factors := false; w_avoid_peak := flag (avoid_peak_hours req);
        w_prioritize_safety := flag (prioritize_safety req) |},
     "distance-only", "Shortest Distance");
    ({| use_factors := true; w_avoid_peak := flag (avoid_peak_hours req);
        w_prioritize_safety := true |},
     "safety-first", "Safest Route");
    ({| use_factors := true; w_avoid_peak := true;
        w_prioritize_safety := flag (prioritize_safety req) |},
     "off-peak", "Off-Peak Schedule") ].

Record DecisionResult := {
  dr_response : RouteResponse;
  dr_suboptimal : bool;
  dr_fallback : bool
}.

(** Modelled from the spec: the optimize operation, sections 4.7, 6 and 7;
    the decision aggregator is absent from the sources.  Validation, then
    the geocoder, then the degenerate-graph check, then the primary solve
    under the request's flags and the three alternatives. *)
Definition optimize (E : Env) (req : DeliveryRequest) : Result DecisionResult :=
  if Qle_bool (fuel_efficiency_mpg (vehicle req)) 0 then Err InvalidVehicleProfile
  else
    let addrs := start_location req :: map address (stops req) in
    match resolve_all E addrs with
    | Err e => Err e
    | Ok pts =>
        if Nat.ltb (List.length (distinct pts)) 2 then Err DegenerateGraphError
        else
          let wt := {| use_factors := true;
                       w_avoid_peak := flag (avoid_peak_hours req);
                       w_prioritize_safety := flag (prioritize_safety req) |} in
          let p := run_policy E wt "primary" (vehicle req) addrs pts in
          let alts :=
            map (fun pol =>
                   let '(w, id, label) := pol in
                   let a := run_policy E w id (vehicle req) addrs pts in
                   {| route := s_route a;
                      cost := s_cost a;
                      recommendation := label;
                      trade_offs := trade_off_note E (s_route p) (s_cost p)
                                      (s_route a) (s_cost a) |})
                (policies req) in
          Ok {| dr_response :=
                  {| primary_route := s_route p;
                     cost_prediction := s_cost p;
                     risk_analysis := analyze_risk E (s_route p);
                     alternatives := alts;
                     explanation := explain E;
                     processing_time_ms := elapsed_ms E |};
                dr_suboptimal := s_suboptimal p;
                dr_fallback := s_fallback p |}
    end.

(** A request the operation accepts: a positive efficiency, every address
    resolved, and at least two distinct points. *)
Definition valid_request (E : Env) (req : DeliveryRequest) : bool :=
  negb (Qle_bool (fuel_efficiency_mpg (vehicle req)) 0)
  && match resolve_all E (start_location req :: map address (stops req)) with
     | Ok pts => Nat.leb 2 (List.length (distinct pts))
     | Err _ => false
     end.

Definition valid_cost_config (cfg : CostConfig) : Prop :=
  0 <= z95 cfg /\ 0 <= fallback_ratio cfg.

Definition interval_ok (c : CostPrediction) : Prop :=
  confidence_lower c <= predicted_cost_usd c /\
  predicted_cost_usd c <= confidence_upper c.

End Core.

(** ** A worked instance

    A depot and three stops on a grid, with the taxicab distance, neutral
    traffic and risk factors and an ensemble of two estimators. *)

Module Example.

Local Open Scope Q_scope.

Definition geocoder (s : string) : option Coordinates :=
  if String.eqb s "Depot" then Some {| lat := 0; lng := 0 |}
  else if String.eqb s "North" then Some {| lat := 5; lng := 0 |}
  else if String.eqb s "Near" then Some {| lat := 1; lng := 0 |}
  else if String.eqb s "East" then Some {| lat := 3; lng := 1 |}
  else None.

Definition taxicab (a b : Coordinates) : Q :=
  Qabs (lat a - lat b) + Qabs (lng a - lng b).

Definition cost_config : Core.CostConfig :=
  {| Core.unit_price := 3;
     Core.idle_rate := 1 # 2;
     Core.stop_cost := 1;
     Core.z95 := 49 # 25;
     Core.fallback_ratio := 3 # 10;
     Core.ensemble := Some [ (fun f => Core.total_distance f);
                             (fun f => Core.total_distance f * 2) ] |}.

Definition env : Core.Env :=
  {| Core.geocode := geocoder;
     Core.distance := taxicab;
     Core.travel_time := fun a b => taxicab a b * 2;
     Core.peak_factor := fun _ _ _ => 1;
     Core.zone_factor := fun _ _ _ => 1;
     Core.risk_contribution := fun _ _ => 0;
     Core.min_weight := 1 # 1000;
     Core.window_penalty := fun _ => 0;
     Core.budget := 10;
     Core.quality := fun d _ _ => d;
     Core.idle_per_stop := 2;
     Core.analyze_risk := fun _ =>
       {| ra_total_risk_score := 0; risk_zones_encountered := [];
          risk_segments := []; risk_level := RiskNone; zones_by_type := [] |};
     Core.trade_off_note := fun _ _ _ _ => "";
     Core.explain := None;
     Core.elapsed_ms := 1;
     Core.cost_config := cost_config |}.

Definition stop_at (a : string) : DeliveryStop :=
  {| address := a; time_window := None; priority := Some 1 |}.

Definition request : DeliveryRequest :=
  {| stops := [stop_at "North"; stop_at "Near"; stop_at "East"];
     vehicle := {| vehicle_type := "van"; fuel_efficiency_mpg := 22;
                   fuel_price_per_gallon := None |};
     start_location := "Depot";
     avoid_peak_hours := Some true;
     prioritize_safety := Some false |}.

(** The alternatives of the response to [request], or none on an error. *)
Definition alternative_routes : list AlternativeRoute :=
  match Core.optimize env request with
  | Core.Ok res => alternatives (Core.dr_response res)
  | Core.Err _ => []
  end.

(** Three zones as the risk-zone listing returns them. *)
Definition risk_zones : list RiskZone :=
  [ {| name := "Harbour Bridge Works"; center := {| lat := 2; lng := 1 |};
       radius_km := 3 # 2; rz_risk_level := 6; zone_type := construction |};
    {| name := "Old Market"; center := {| lat := 4; lng := 0 |};
       radius_km := 1; rz_risk_level := 8; zone_type := crime |};
    {| name := "Ring Road"; center := {| lat := 1; lng := 3 |};
       radius_km := 2; rz_risk_level := 4; zone_type := congestion |} ].

End Example.

(** * Properties *)

Local Open Scope nat_scope.

(** ** Risk classification *)

Lemma leb_inject_Z (v k : Z) : JS.leb (inject_Z v) (inject_Z k) = (v <=? k)%Z.
Proof.
  unfold JS.leb, Qle_bool; simpl.
  rewrite !Z.mul_1_r. reflexivity.
Qed.

Lemma ltb_inject_Z (v k : Z) : JS.ltb (inject_Z v) (inject_Z k) = (v <? k)%Z.
Proof.
  unfold JS.ltb. rewrite Z.ltb_antisym. f_equal.
  apply (leb_inject_Z k v).
Qed.

Ltac table_cases v :=
  repeat match goal with
         | |- context [(?a <=? ?b)%Z] => destruct (Z.leb_spec a b)
         | |- context [(?a <? ?b)%Z] => destruct (Z.ltb_spec a b)
         end; simpl; try reflexivity; try lia.

(** [getRiskLabel] of the RiskZones page follows the threshold table at
    every integer level. *)
Lemma getRiskLabel_table (v : Z) :
  RiskZonesPage.getRiskLabel (inject_Z v)
  = RiskZonesPage.label_of_level (threshold_table v).
Proof.
  unfold RiskZonesPage.getRiskLabel, threshold_table.
  change 3%Q with (inject_Z 3); change 5%Q with (inject_Z 5);
    change 7%Q with (inject_Z 7).
  rewrite !leb_inject_Z. table_cases v.
Qed.

(** [getRiskColor] of RouteMap follows the threshold table at every integer
    level. *)
Lemma RouteMap_getRiskColor_table (v : Z) :
  RouteMap.getRiskColor (inject_Z v)
  = RouteMap.color_of_level (threshold_table v).
Proof.
  unfold RouteMap.getRiskColor, threshold_table.
  change 3%Q with (inject_Z 3); change 5%Q with (inject_Z 5);
    change 7%Q with (inject_Z 7).
  rewrite !leb_inject_Z. table_cases v.
Qed.

(** What [getRiskColor] of RouteComparison computes on the integers: its
    own cut points are 2, 5 and 7, exclusive. *)
Lemma RouteComparison_getRiskColor_cuts (v : Z) :
  RouteComparison.getRiskColor (inject_Z v)
  = CostDashboard.getRiskLevelColor
      (if (v <? 2)%Z then RiskLow
       else if (v <? 5)%Z then RiskMedium
       else if (v <? 7)%Z then RiskHigh
       else RiskCritical).
Proof.
  unfold RouteComparison.getRiskColor.
  change 2%Q with (inject_Z 2); change 5%Q with (inject_Z 5);
    change 7%Q with (inject_Z 7).
  rewrite !ltb_inject_Z. table_cases v.
Qed.

(** C1.  The RiskZones label and the RouteMap colour follow the threshold
    table on the whole scale, and so does the RouteComparison colour at 0,
    1, 4, 6, 8, 9 and 10; at the levels 2, 3, 5 and 7 the RouteComparison
    colour is the one of the next bucket: 2 and 3 get the medium colour, 5
    the high colour and 7 the critical colour. *)
Theorem C1_risk_buckets :
  (forall v : Z, RiskZonesPage.getRiskLabel (inject_Z v)
                 = RiskZonesPage.label_of_level (threshold_table v)) /\
  (forall v : Z, RouteMap.getRiskColor (inject_Z v)
                 = RouteMap.color_of_level (threshold_table v)) /\
  Forall (fun v : Z => RouteComparison.getRiskColor (inject_Z v)
                       = CostDashboard.getRiskLevelColor (threshold_table v))
         [0; 1; 4; 6; 8; 9; 10]%Z /\
  threshold_table 2 = RiskLow /\
  RouteComparison.getRiskColor 2 = CostDashboard.getRiskLevelColor RiskMedium /\
  threshold_table 3 = RiskLow /\
  RouteComparison.getRiskColor 3 = CostDashboard.getRiskLevelColor RiskMedium /\
  threshold_table 5 = RiskMedium /\
  RouteComparison.getRiskColor 5 = CostDashboard.getRiskLevelColor RiskHigh /\
  threshold_table 7 = RiskHigh /\
  RouteComparison.getRiskColor 7 = CostDashboard.getRiskLevelColor RiskCritical.
Proof.
  split; [ exact getRiskLabel_table | ].
  split; [ exact RouteMap_getRiskColor_table | ].
  split; [ repeat constructor | ].
  repeat split.
Qed.

(** ** The delivery form *)

Section RemoveByIndex.

Context {A : Type}.
Variable index : Z.


(** Past the removed index every element stays. *)
Lemma filteri_past (l : list A) (k : nat) :
  (index < Z.of_nat k)%Z ->
  JS.filteri (fun (_ : A) i => negb (Z.of_nat i =? index)%Z) k l = l.
Proof.
  revert k. induction l as [| x l IH]; intros k Hk; simpl; [ reflexivity | ].
  destruct (Z.eqb_spec (Z.of_nat k) index) as [E | _]; [ lia | ].
  simpl. f_equal. apply IH. lia.
Qed.

(** Removing by index drops at most one element. *)
Lemma filteri_drops_one (l : list A) (k : nat) :
  List.length l
  <= S (List.length (JS.filteri (fun (_ : A) i => negb (Z.of_nat i =? index)%Z) k l)).
Proof.
  revert k. induction l as [| x l IH]; intros k; simpl; [ lia | ].
  destruct (Z.eqb_spec (Z.of_nat k) index) as [E | _]; simpl.
  - rewrite filteri_past by lia. lia.
  - specialize (IH (S k)). lia.
Qed.

End RemoveByIndex.

Lemma assign_address_length (a : list DeliveryStop) (i : nat) (s : string)
  (r : list DeliveryStop) :
  assign_address a i s = Some r -> List.length r = List.length a.
Proof.
  revert i r. induction a as [| x a IH]; intros i r H; simpl in H.
  - discriminate.
  - destruct i as [| i].
    + injection H as <-. reflexivity.
    + destruct (assign_address a i s) as [r' |] eqn:E; [ | discriminate ].
      injection H as <-. simpl. f_equal. eapply IH; eassumption.
Qed.

Lemma dispatch_has_stop (st : FormState) (e : event) :
  has_stop st -> has_stop (DeliveryForm.dispatch st e).
Proof.
  unfold has_stop. intros H.
  destruct e as [| i | i a | s | v | q | b | b]; simpl; try assumption.
  - rewrite length_app. simpl. lia.
  - unfold DeliveryForm.removeStop.
    destruct (Nat.ltb_spec 1 (List.length (form_stops st))) as [L | L];
      simpl; [ | assumption ].
    pose proof (filteri_drops_one i (form_stops st) 0). lia.
  - unfold DeliveryForm.updateStop.
    destruct (i <? 0)%Z; [ assumption | ].
    destruct (assign_address (form_stops st) (Z.to_nat i) a) as [r |] eqn:E;
      [ | assumption ].
    simpl. rewrite (assign_address_length _ _ _ _ E). assumption.
Qed.

Lemma effect_stops (st : FormState) :
  form_stops (DeliveryFormV2.vehicleTypeEffect st) = form_stops st.
Proof.
  unfold DeliveryFormV2.vehicleTypeEffect.
  destruct (DeliveryFormV2.lookup (vehicleType st) DeliveryFormV2.defaults) as [d |];
    [ destruct (Qeq_bool d 0) | ]; reflexivity.
Qed.

Lemma dispatchV2_has_stop (st : FormState) (e : event) :
  has_stop st -> has_stop (DeliveryFormV2.dispatch st e).
Proof.
  unfold has_stop. intros H.
  destruct e as [| i | i a | s | v | q | b | b]; simpl; try assumption.
  - rewrite length_app. simpl. lia.
  - unfold DeliveryFormV2.removeStop.
    destruct (Nat.ltb_spec 1 (List.length (form_stops st))) as [L | L];
      simpl; [ | assumption ].
    pose proof (filteri_drops_one i (form_stops st) 0). lia.
  - unfold DeliveryFormV2.updateStop.
    destruct (i <? 0)%Z; [ assumption | ].
    destruct (assign_address (form_stops st) (Z.to_nat i) a) as [r |] eqn:E;
      [ | assumption ].
    simpl. rewrite (assign_address_length _ _ _ _ E). assumption.
  - destruct (String.eqb v (vehicleType st)); [ assumption | ].
    rewrite effect_stops. assumption.
Qed.

(** An invariant of every step holds after every sequence of events. *)
Lemma fold_invariant (step : FormState -> event -> FormState)
  (P : FormState -> Prop) :
  (forall st e, P st -> P (step st e)) ->
  forall es st, P st -> P (fold_left step es st).
Proof.
  intros Hstep es. induction es as [| e es IH]; intros st H; simpl.
  - assumption.
  - apply IH, Hstep, H.
Qed.

(** C4.  After every sequence of events of either variant of the form
    (adding, removing and editing stops, and the other controls), the list
    of stops has at least one element, and so has the request built by
    [handleSubmit]. *)
Theorem C4_at_least_one_stop (es : list event) :
  1 <= List.length (form_stops (DeliveryForm.run es)) /\
  1 <= List.length (stops (DeliveryForm.handleSubmit (DeliveryForm.run es))) /\
  1 <= List.length (form_stops (DeliveryFormV2.run es)) /\
  1 <= List.length (stops (DeliveryFormV2.handleSubmit (DeliveryFormV2.run es))).
Proof.
  assert (H1 : has_stop (DeliveryForm.run es)).
  { unfold DeliveryForm.run. apply fold_invariant; [ exact dispatch_has_stop | ].
    unfold has_stop; simpl; lia. }
  assert (H2 : has_stop (DeliveryFormV2.run es)).
  { unfold DeliveryFormV2.run. apply fold_invariant; [ exact dispatchV2_has_stop | ].
    unfold has_stop; simpl; lia. }
  repeat split; assumption.
Qed.

(** C10.  On the same form state the two variants hand the same request to
    [onSubmit]. *)
Theorem C10_submit_equivalent (st : FormState) :
  DeliveryForm.handleSubmit st = DeliveryFormV2.handleSubmit st.
Proof.
  destruct st; reflexivity.
Qed.

(** ** Route comparison *)

Lemma nth_error_mapi {A B : Type} (f : A -> nat -> B) (l : list A) (k i : nat) :
  nth_error (JS.mapi f k l) i = option_map (fun a => f a (k + i)) (nth_error l i).
Proof.
  revert k i. induction l as [| x l IH]; intros k i.
  - destruct i; reflexivity.
  - destruct i as [| i]; simpl.
    + rewrite Nat.add_0_r. reflexivity.
    + rewrite IH. rewrite Nat.add_succ_r. reflexivity.
Qed.

Lemma getAlternativeName_policy (i : nat) (p : RouteComparison.Policy) :
  nth_error RouteComparison.canonical_policies i = Some p ->
  RouteComparison.getAlternativeName i = RouteComparison.policy_label p.
Proof.
  destruct i as [| [| [| i]]]; simpl; intros H;
    try (injection H as <-; reflexivity).
  destruct i; discriminate.
Qed.

(** C7.  In the list rendered by RouteComparison, the alternative at
    position [i] = 0, 1, 2 whose route has at least one ordered stop is
    headed by the label of the [i]-th canonical policy: Shortest Distance,
    Safest Route, Off-Peak Schedule. *)
Theorem C7_alternative_labels (alts : list AlternativeRoute) (i : nat)
  (alt : AlternativeRoute) (p : RouteComparison.Policy) :
  nth_error alts i = Some alt ->
  1 <= List.length (ordered_stops (route alt)) ->
  nth_error RouteComparison.canonical_policies i = Some p ->
  nth_error (RouteComparison.headings alts) i = Some (RouteComparison.policy_label p)
  /\ RouteComparison.policy_label p
     = nth i ["Shortest Distance"; "Safest Route"; "Off-Peak Schedule"] "".
Proof.
  intros Halt Hlen Hp. split.
  - unfold RouteComparison.headings. rewrite nth_error_mapi, Halt. simpl.
    unfold RouteComparison.heading.
    destruct (Nat.ltb_spec 0 (List.length (ordered_stops (route alt)))); [ | lia ].
    f_equal. apply getAlternativeName_policy, Hp.
  - destruct i as [| [| [| i]]]; simpl in Hp;
      try (injection Hp as <-; reflexivity).
    destruct i; discriminate.
Qed.

(** ** Difference text *)

Lemma ltb_lt (x y : Q) : JS.ltb x y = true <-> (x < y)%Q.
Proof.
  unfold JS.ltb. rewrite negb_true_iff.
  split; intros H.
  - apply Qnot_le_lt. intros L. apply Qle_bool_iff in L. congruence.
  - destruct (Qle_bool y x) eqn:E; [ | reflexivity ].
    apply Qle_bool_iff in E. exfalso. exact (Qlt_not_le _ _ H E).
Qed.











Lemma ltb_0_sub (p a : Q) : JS.ltb 0 (a - p) = true <-> (p < a)%Q.
Proof.
  rewrite ltb_lt. split; intros H.
  - apply (Qplus_lt_l _ _ (- p)). rewrite Qplus_opp_r. exact H.
  - apply (Qplus_lt_l _ _ (- p)) in H. rewrite Qplus_opp_r in H. exact H.
Qed.

(** The text of a difference that is not "Same". *)
Lemma getDifferenceText_far (p a : Q) (u : string) (b : bool) :
  JS.ltb (Qabs (a - p)) (1 # 100) = false ->
  RouteComparison.getDifferenceText p a u b
  = (if JS.ltb 0 (a - p) then "+" else "") ++ JS.toFixed 1 (Qabs (a - p)) ++ u.
Proof.
  intros H. unfold RouteComparison.getDifferenceText. rewrite H.
  destruct b; reflexivity.
Qed.

(** ** Difference text on the numbers of the engine *)

Section Binary64Facts.

Local Open Scope Z_scope.



















End Binary64Facts.

(** The model at known values: the numbers nearest to 0.05 and to 0.35 lie
    above the one and below the other, so that they print as 0.1 and 0.3;
    from 10^21 on the exponent notation takes over, with the shortest
    digits that read back as the same number. *)
Lemma toFixed_known_values :
  Binary64.toFixed 1 (Binary64.of_decimal 5 2) = "0.1"
  /\ Binary64.toFixed 1 (Binary64.of_decimal 35 2) = "0.3"
  /\ Binary64.toFixed 1 (Binary64.of_integer (10 ^ 21 - 65537)) = "999999999999999868928.0"
  /\ Binary64.toFixed 1 (Binary64.of_integer (2 ^ 70)) = "1.1805916207174113e+21"
  /\ Binary64.toFixed 1 (Binary64.of_integer (10 ^ 23)) = "1e+23".
Proof. repeat split; vm_compute; reflexivity. Qed.

(** At the threshold the rounding of the subtraction decides: 0.01 less
    3e-19 is below one hundredth, but the computed difference is the
    number 0.01 itself, which is not below the literal. *)
Lemma difference_text_at_threshold :
  RouteComparison64.getDifferenceText (Binary64.of_decimal 3 19)
    (Binary64.of_decimal 1 2) "km" false = "+0.0km"
  /\ (Binary64.exact (Binary64.of_decimal 1 2) - Binary64.exact (Binary64.of_decimal 3 19)
      < 1 # 100)%Q
  /\ RouteComparison64.getDifferenceText (Binary64.of_decimal 251 1)
       (Binary64.of_decimal 253 1) "km" false = "+0.2km".
Proof.
  split; [ vm_compute; reflexivity | ].
  split; [ | vm_compute; reflexivity ].
  apply Qnot_le_lt. intros H. apply Qle_bool_iff in H. vm_compute in H. discriminate.
Qed.





(** The literal 0.01 is the number of the format nearest to one
    hundredth. *)
Lemma lit_0_01_nearest :
  Binary64.lit_0_01 = Binary64.of_decimal 1 2
  /\ (Qabs (Binary64.exact Binary64.lit_0_01 - (1 # 100)) <= 2 ^ (-60))%Q.
Proof.
  split; [ vm_compute; reflexivity | ].
  apply Qle_bool_iff. vm_compute. reflexivity.
Qed.


(** ** Pagination of the risk zones *)

Lemma slice_length_le {A : Type} (l : list A) (s e : Z) :
  (s <= e <= s + 9)%Z -> (s < 0 -> e <= 0)%Z -> List.length (JS.slice l s e) <= 9.
Proof.
  intros Hd Hs. unfold JS.slice.
  set (len := Z.of_nat (List.length l)).
  rewrite length_firstn.
  apply Nat.le_trans with (1 := Nat.le_min_l _ _).
  assert (0 <= len)%Z by (subst len; lia).
  destruct (Z.ltb_spec s 0), (Z.ltb_spec e 0); lia.
Qed.

Lemma In_firstn {A : Type} (l : list A) (n : nat) (x : A) :
  In x (firstn n l) -> In x l.
Proof.
  intros H. rewrite <- (firstn_skipn n l). apply in_or_app. left. exact H.
Qed.

Lemma In_skipn {A : Type} (l : list A) (n : nat) (x : A) :
  In x (skipn n l) -> In x l.
Proof.
  intros H. rewrite <- (firstn_skipn n l). apply in_or_app. right. exact H.
Qed.

Lemma slice_incl {A : Type} (l : list A) (s e : Z) (x : A) :
  In x (JS.slice l s e) -> In x l.
Proof.
  unfold JS.slice. intros H.
  apply In_firstn in H. apply In_skipn in H. exact H.
Qed.

Lemma slice_nat {A : Type} (l : list A) (a b : nat) :
  JS.slice l (Z.of_nat a) (Z.of_nat (a + b)) = firstn b (skipn a l).
Proof.
  unfold JS.slice.
  destruct (Z.ltb_spec (Z.of_nat a) 0); [ lia | ].
  destruct (Z.ltb_spec (Z.of_nat (a + b)) 0); [ lia | ].
  destruct (Nat.le_gt_cases (List.length l) a) as [Hlen | Hlen].
  - rewrite (skipn_all2 l Hlen).
    replace (Z.to_nat (Z.min (Z.of_nat a) (Z.of_nat (List.length l))))
      with (List.length l) by lia.
    rewrite skipn_all. rewrite !firstn_nil. reflexivity.
  - replace (Z.to_nat (Z.min (Z.of_nat a) (Z.of_nat (List.length l)))) with a by lia.
    destruct (Nat.le_gt_cases (List.length l) (a + b)) as [Hb | Hb].
    + rewrite !firstn_all2; [ reflexivity | | ]; rewrite length_skipn; lia.
    + f_equal. lia.
Qed.

Lemma firstn_add {A : Type} (l : list A) (a b : nat) :
  (firstn a l ++ firstn b (skipn a l))%list = firstn (a + b) l.
Proof.
  revert l. induction a as [| a IH]; intros l; simpl; [ reflexivity | ].
  destruct l as [| x l]; simpl.
  - rewrite firstn_nil. reflexivity.
  - f_equal. apply IH.
Qed.

(** The first [k] pages, one after the other, are the first [9 k] zones. *)
Lemma pages_concat (f : list RiskZone) (k : nat) :
  List.concat (map (RiskZonesPage.paginatedZones f)
              (map (fun i => Z.of_nat i + 1)%Z (seq 0 k)))
  = firstn (9 * k) f.
Proof.
  induction k as [| k IH].
  - reflexivity.
  - rewrite seq_S, !map_app, concat_app, IH. cbn [map List.concat Nat.add].
    rewrite app_nil_r. unfold RiskZonesPage.paginatedZones, RiskZonesPage.ZONES_PER_PAGE.
    replace ((Z.of_nat k + 1 - 1) * 9)%Z with (Z.of_nat (9 * k)) by lia.
    replace ((Z.of_nat k + 1) * 9)%Z with (Z.of_nat (9 * k + 9)) by lia.
    rewrite slice_nat, firstn_add. f_equal. lia.
Qed.

Lemma totalPages_covers (f : list RiskZone) :
  (Z.of_nat (List.length f) <= 9 * RiskZonesPage.totalPages f)%Z.
Proof.
  unfold RiskZonesPage.totalPages, RiskZonesPage.ZONES_PER_PAGE.
  set (n := Z.of_nat (List.length f)).
  pose proof (Qle_ceiling (inject_Z n / inject_Z 9)) as H.
  set (t := Qceiling (inject_Z n / inject_Z 9)) in *.
  apply (Qmult_le_compat_r _ _ (inject_Z 9)) in H; [ | discriminate ].
  unfold Qdiv in H.
  rewrite <- Qmult_assoc, (Qmult_comm (/ inject_Z 9)), Qmult_inv_r, Qmult_1_r in H
    by discriminate.
  rewrite <- inject_Z_mult in H. rewrite <- Zle_Qle in H. lia.
Qed.

Lemma includes_empty (s : string) : JS.includes s "" = true.
Proof. destruct s; reflexivity. Qed.

Lemma matchesSearch_includes (q : string) (z : RiskZone) :
  RiskZonesPage.matchesSearch q z = true ->
  JS.includes (JS.toLowerCase (name z)) (JS.toLowerCase q)
  || JS.includes (JS.toLowerCase (zone_type_string (zone_type z))) (JS.toLowerCase q)
  = true.
Proof.
  unfold RiskZonesPage.matchesSearch.
  destruct q as [| c q]; simpl JS.truthy; cbv iota.
  - intros _. simpl JS.toLowerCase. rewrite includes_empty. reflexivity.
  - trivial.
Qed.

Lemma prefix_occurs (sub s : string) :
  prefix sub s = true <-> exists after : string, s = sub ++ after.
Proof.
  revert s. induction sub as [| a sub IH]; intros s.
  - split; [ intros _; exists s; reflexivity | intros _; destruct s; reflexivity ].
  - destruct s as [| b s]; cbn [prefix].
    + split; [ discriminate | intros [after H]; discriminate ].
    + destruct (ascii_dec a b) as [-> | Hab].
      * rewrite IH. split; intros [after H]; exists after.
        -- cbn [append]. rewrite <- H. reflexivity.
        -- cbn [append] in H. injection H as H. exact H.
      * split; [ discriminate | ].
        intros [after H]. cbn [append] in H. injection H as H _.
        contradiction Hab. symmetry. exact H.
Qed.

Lemma includes_occurs (s sub : string) :
  JS.includes s sub = true <-> RiskZonesPage.occurs_in sub s.
Proof.
  unfold RiskZonesPage.occurs_in. induction s as [| c s IH]; cbn [JS.includes].
  - rewrite orb_false_r, prefix_occurs. split.
    + intros [after H]. exists "", after. exact H.
    + intros [[| b before] [after H]]; [ exists after; exact H | discriminate ].
  - rewrite orb_true_iff, prefix_occurs, IH. split.
    + intros [[after H] | [before [after H]]].
      * exists "", after. exact H.
      * exists (String c before), after. cbn [append]. rewrite <- H. reflexivity.
    + intros [[| b before] [after H]].
      * left. exists after. exact H.
      * right. exists before, after. cbn [append] in H. injection H as _ H. exact H.
Qed.

Lemma matchesType_spec (selectedType : option string) (z : RiskZone) :
  RiskZonesPage.matchesType selectedType z = true
  <-> match selectedType with
      | Some (String c t) => zone_type_string (zone_type z) = String c t
      | _ => True
      end.
Proof.
  unfold RiskZonesPage.matchesType.
  destruct selectedType as [[| c t] |]; cbn [JS.truthy].
  - split; trivial.
  - apply String.eqb_eq.
  - split; trivial.
Qed.

Lemma keep_passes (toLowerCase : string -> string)
  (selectedType : option string) (searchQuery : string) (z : RiskZone) :
  toLowerCase "" = "" ->
  RiskZonesPage.matchesType selectedType z
  && RiskZonesPage.matchesSearchWith toLowerCase searchQuery z = true
  <-> RiskZonesPage.zone_passes toLowerCase selectedType searchQuery z.
Proof.
  intros H0. unfold RiskZonesPage.zone_passes.
  rewrite andb_true_iff, matchesType_spec.
  apply and_iff_compat_l.
  unfold RiskZonesPage.matchesSearchWith.
  destruct searchQuery as [| c q]; cbn [JS.truthy].
  - rewrite H0. split; [ intros _ | reflexivity ].
    left. exists "", (toLowerCase (name z)). reflexivity.
  - rewrite orb_true_iff, !includes_occurs. reflexivity.
Qed.

(** C9.  For all zones, type filter, search query and current page, and
    whatever the case mapping is (it keeps the empty string): the page holds
    at most 9 zones; each of them matches the active type filter and holds
    the lowered query in its lowered name or zone type; the filtered list
    is the zone list restricted, in order, to exactly the zones that do;
    and the pages 1 to [totalPages], in order, make up the filtered
    list. *)
Theorem C9_pagination (toLowerCase : string -> string)
  (riskZones : list RiskZone) (selectedType : option string)
  (searchQuery : string) (currentPage : Z) :
  toLowerCase "" = "" ->
  let filtered :=
    RiskZonesPage.filteredZonesWith toLowerCase riskZones selectedType searchQuery in
  List.length (RiskZonesPage.paginatedZones filtered currentPage) <= 9
  /\ Forall (RiskZonesPage.zone_passes toLowerCase selectedType searchQuery)
            (RiskZonesPage.paginatedZones filtered currentPage)
  /\ (exists keep : RiskZone -> bool,
        (forall z, keep z = true
                   <-> RiskZonesPage.zone_passes toLowerCase selectedType searchQuery z)
        /\ filtered = filter keep riskZones)
  /\ List.concat (map (RiskZonesPage.paginatedZones filtered)
                 (RiskZonesPage.pageNumbers (RiskZonesPage.totalPages filtered)))
     = filtered.
Proof.
  intros H0 filtered. split; [ | split; [ | split ] ].
  - apply slice_length_le; unfold RiskZonesPage.ZONES_PER_PAGE; lia.
  - apply Forall_forall. intros z Hz.
    apply slice_incl in Hz. unfold filtered, RiskZonesPage.filteredZonesWith in Hz.
    apply filter_In in Hz as [_ Hz]. apply (keep_passes _ _ _ _ H0), Hz.
  - exists (fun z => RiskZonesPage.matchesType selectedType z
                     && RiskZonesPage.matchesSearchWith toLowerCase searchQuery z).
    split; [ | reflexivity ].
    intros z. apply keep_passes, H0.
  - unfold RiskZonesPage.pageNumbers. rewrite pages_concat.
    apply firstn_all2. pose proof (totalPages_covers filtered). lia.
Qed.

(** ** Error handling of the Optimizer page *)

Lemma digits_nonempty (z : Z) : JS.digits z <> "".
Proof.
  unfold JS.digits. destruct (Z.to_N z) as [| p]; simpl; [ discriminate | ].
  pose proof (Unsigned.to_uint_nonnil p) as H.
  destruct (Pos.to_uint p); simpl; try discriminate. contradiction.
Qed.

Lemma string_of_int_nonempty (z : Z) : JS.string_of_int z <> "".
Proof.
  unfold JS.string_of_int. destruct (z <? 0)%Z; [ discriminate | ].
  apply digits_nonempty.
Qed.

Lemma truthy_nonempty (s : string) : JS.truthy s = true <-> s <> "".
Proof.
  destruct s; simpl; split; intros H; try discriminate; try reflexivity.
  contradiction.
Qed.

Lemma append_nonempty_l (s t : string) : s <> "" -> s ++ t <> "".
Proof. destruct s; [ contradiction | discriminate ]. Qed.

Lemma append_nonempty_r (s t : string) : t <> "" -> s ++ t <> "".
Proof. destruct s; [ trivial | discriminate ]. Qed.

Lemma render_nonempty (e : Optimizer.ValidationError) : Optimizer.render e <> "".
Proof.
  unfold Optimizer.render. apply append_nonempty_r. discriminate.
Qed.

Lemma join_cons_nonempty (sep x : string) (l : list string) :
  x <> "" -> JS.join sep (x :: l) <> "".
Proof.
  intros H. unfold JS.join. simpl. destruct l; [ exact H | ].
  apply append_nonempty_l, H.
Qed.

Lemma stringify_truthy_nonempty (o : Optimizer.OtherDetail) :
  Optimizer.detail_truthy (Optimizer.DetailOther o) = true ->
  Optimizer.stringify (Optimizer.other_value o) <> "".
Proof.
  destruct o as [| [|] | z | l]; simpl; intros H; try discriminate.
  apply string_of_int_nonempty.
Qed.

Lemma fallback_nonempty (m : option string) :
  match m with
  | Some s => if JS.truthy s then s else Optimizer.default_message
  | None => Optimizer.default_message
  end <> "".
Proof.
  destruct m as [s |]; [ | discriminate ].
  destruct (JS.truthy s) eqn:E; [ apply truthy_nonempty, E | discriminate ].
Qed.

(** The message is empty only for the empty array. *)
Lemma errorMessage_nonempty (err : Optimizer.RequestError) :
  Optimizer.response_detail err <> Some (Optimizer.DetailArray []) ->
  Optimizer.errorMessage err <> "".
Proof.
  unfold Optimizer.errorMessage. intros Hne.
  destruct (Optimizer.response_detail err) as [d |]; [ | apply fallback_nonempty ].
  destruct (Optimizer.detail_truthy d) eqn:Ht; [ | apply fallback_nonempty ].
  destruct d as [l | s | o].
  - destruct l as [| e l]; [ congruence | ].
    apply join_cons_nonempty, render_nonempty.
  - apply truthy_nonempty, Ht.
  - apply stringify_truthy_nonempty, Ht.
Qed.

(** C5, as stated, fails on three rejections.  With the empty array as
    [detail] the error state is the empty string.  With the empty string as
    [detail] the page shows the message of the error object, not the
    detail.  With an empty location path the entry is named "Field", not by
    the joined path. *)
Lemma C5_counterexample :
  Optimizer.error (Optimizer.handleOptimize
                     (Optimizer.Rejected Optimizer.empty_array_rejection)
                     Optimizer.initial) = Some ""
  /\ Optimizer.error (Optimizer.handleOptimize
                        (Optimizer.Rejected Optimizer.empty_string_rejection)
                        Optimizer.initial)
     = Some "Request failed with status code 400"
  /\ Optimizer.error (Optimizer.handleOptimize
                        (Optimizer.Rejected Optimizer.empty_path_rejection)
                        Optimizer.initial)
     = Some "Field: value is not valid".
Proof. repeat split. Qed.

Lemma render_entry_text (e : Optimizer.ValidationError) :
  Optimizer.entry_text_spec e (Optimizer.render e).
Proof.
  unfold Optimizer.render. destruct (Optimizer.loc e) as [p |] eqn:E.
  - change Optimizer.arrow with " → ".
    destruct (JS.join " → " (map Optimizer.loc_string p)) as [| c j] eqn:J.
    + cbn [JS.truthy]. apply (Optimizer.entry_unnamed_empty e p E J).
    + cbn [JS.truthy]. rewrite <- J.
      apply (Optimizer.entry_named e p E). rewrite J. discriminate.
  - apply (Optimizer.entry_unnamed_missing e E).
Qed.

Lemma render_all_entry_text (l : list Optimizer.ValidationError) :
  Forall2 Optimizer.entry_text_spec l (map Optimizer.render l).
Proof.
  induction l as [| e l IH]; cbn [map]; constructor.
  - apply render_entry_text.
  - exact IH.
Qed.

(** C5, amended.  After a rejected call the result state is null, the
    loading flag is off and the error state holds a string.  For a
    non-empty array [detail] that string is the texts of the entries joined
    with "; ", each text naming the location path joined with the arrow
    (or Field when the path is missing or joins to the empty string), then
    ": " and the entry's message; it is non-empty.  A non-empty string
    [detail] is shown verbatim.  A missing, null, false, zero or
    empty-string [detail] gives the fallback: the error's own message when
    that is a non-empty string, else the fixed default sentence.  Any other
    [detail] gives a non-empty string.  The empty array is left out. *)
Theorem C5_error_message (err : Optimizer.RequestError) (st : Optimizer.State) :
  let st' := Optimizer.handleOptimize (Optimizer.Rejected err) st in
  let fallback :=
    match Optimizer.message err with
    | Some (String c m) => String c m
    | _ => "Failed to optimize route. Please check your inputs and try again."
    end in
  Optimizer.result st' = None
  /\ Optimizer.isLoading st' = false
  /\ (exists s, Optimizer.error st' = Some s)
  /\ fallback <> ""
  /\ match Optimizer.response_detail err with
     | Some (Optimizer.DetailArray []) => True
     | Some (Optimizer.DetailArray (e :: l)) =>
         exists texts,
           Forall2 Optimizer.entry_text_spec (e :: l) texts
           /\ Optimizer.error st' = Some (JS.join "; " texts)
           /\ JS.join "; " texts <> ""
     | Some (Optimizer.DetailString (String c d)) =>
         Optimizer.error st' = Some (String c d)
     | Some (Optimizer.DetailString EmptyString)
     | Some (Optimizer.DetailOther Optimizer.ONull)
     | Some (Optimizer.DetailOther (Optimizer.OBool false))
     | Some (Optimizer.DetailOther (Optimizer.ONum Z0))
     | None =>
         Optimizer.error st' = Some fallback
     | Some (Optimizer.DetailOther _) =>
         exists s, Optimizer.error st' = Some s /\ s <> ""
     end.
Proof.
  cbv zeta.
  assert (F : match Optimizer.message err with
              | Some m => if JS.truthy m then m else Optimizer.default_message
              | None => Optimizer.default_message
              end
              = match Optimizer.message err with
                | Some (String c m) => String c m
                | _ => "Failed to optimize route. Please check your inputs and try again."
                end).
  { destruct (Optimizer.message err) as [[| c m] |]; reflexivity. }
  split; [ reflexivity | ].
  split; [ reflexivity | ].
  split; [ eexists; reflexivity | ].
  split.
  { destruct (Optimizer.message err) as [[| c m] |]; discriminate. }
  cbn [Optimizer.handleOptimize Optimizer.setIsLoading Optimizer.setError
       Optimizer.setResult Optimizer.error].
  unfold Optimizer.errorMessage. rewrite F.
  destruct (Optimizer.response_detail err) as [[[| e l] | [| c d] | o] |];
    cbn [Optimizer.detail_truthy JS.truthy]; try reflexivity; try exact I.
  - exists (map Optimizer.render (e :: l)).
    split; [ apply render_all_entry_text | ].
    split; [ reflexivity | ].
    cbn [map]. apply join_cons_nonempty. apply render_nonempty.
  - destruct o as [| [|] | z | fields]; cbn [Optimizer.detail_truthy];
      try reflexivity.
    + eexists. split; [ reflexivity | ]. discriminate.
    + destruct z as [| p | p]; cbn [Z.eqb negb]; try reflexivity;
        (eexists; split; [ reflexivity | ]);
        apply (stringify_truthy_nonempty (Optimizer.ONum _)); reflexivity.
    + eexists. split; [ reflexivity | ].
      apply (stringify_truthy_nonempty (Optimizer.OObj fields)). reflexivity.
Qed.

(** ** The decision engine: the route *)

Lemma nearest_In (w : nat -> nat -> Q) (cur best : nat) (cands : list nat) :
  In (Core.nearest w cur best cands) (best :: cands).
Proof.
  revert best. induction cands as [| c cs IH]; intros best; simpl.
  - left. reflexivity.
  - destruct (Core.Qltb (w cur c) (w cur best)).
    + right. apply IH.
    + destruct (IH best) as [H | H]; [ left; exact H | right; right; exact H ].
Qed.

Lemma remove_first_perm (x : nat) (l : list nat) :
  In x l -> Permutation (x :: Core.remove_first x l) l.
Proof.
  induction l as [| y l IH]; simpl; intros H; [ contradiction | ].
  destruct (Nat.eqb_spec x y) as [-> | Hne].
  - reflexivity.
  - destruct H as [H | H]; [ congruence | ].
    rewrite perm_swap. constructor. apply IH, H.
Qed.

(** CONSTRUCT visits every unvisited stop exactly once. *)
Lemma construct_perm (w : nat -> nat -> Q) (fuel cur : nat) (unvisited : list nat) :
  List.length unvisited <= fuel ->
  Permutation (Core.construct w fuel cur unvisited) unvisited.
Proof.
  revert cur unvisited. induction fuel as [| fuel IH]; intros cur unvisited Hlen.
  - destruct unvisited; simpl in *; [ constructor | lia ].
  - destruct unvisited as [| c cs]; [ constructor | ].
    cbn [Core.construct].
    set (nxt := Core.nearest w cur c cs).
    assert (Hin : In nxt (c :: cs)) by apply nearest_In.
    pose proof (remove_first_perm nxt (c :: cs) Hin) as Hp.
    rewrite <- Hp at 2. constructor. apply IH.
    apply Permutation_length in Hp. cbn [List.length] in Hp, Hlen.
    fold nxt in Hp. lia.
Qed.

Lemma two_opt_move_perm (t : list nat) (i k : nat) :
  Permutation (Core.two_opt_move t i k) t.
Proof.
  unfold Core.two_opt_move.
  rewrite <- (firstn_skipn i t) at 4.
  apply Permutation_app_head.
  rewrite <- (firstn_skipn k (skipn i t)) at 3.
  apply Permutation_app_tail. symmetry. apply Permutation_rev.
Qed.

Lemma two_opt_move_head (t : list nat) (i k : nat) :
  1 <= i -> hd_error (Core.two_opt_move t i k) = hd_error t.
Proof.
  intros Hi. destruct i as [| i]; [ lia | ].
  destruct t as [| a t]; [ destruct k; reflexivity | reflexivity ].
Qed.

Lemma moves_from_one (n i k : nat) : In (i, k) (Core.moves n) -> 1 <= i.
Proof.
  unfold Core.moves. intros H.
  apply filter_In in H as [H _]. apply in_prod_iff in H as [H _].
  apply in_seq in H. lia.
Qed.

Lemma improve_step_sound (E : Core.Env) (w : nat -> nat -> Q) (t t' : list nat) :
  Core.improve_step E w t = Some t' ->
  Permutation t' t /\ hd_error t' = hd_error t.
Proof.
  unfold Core.improve_step. intros H.
  destruct (find _ (Core.moves (List.length t))) as [[i k] |] eqn:F;
    [ | discriminate ].
  injection H as <-. apply find_some in F as [F _]. simpl.
  split; [ apply two_opt_move_perm | ].
  apply two_opt_move_head. eapply moves_from_one; eassumption.
Qed.

(** IMPROVE keeps the stops and the first stop, whatever the budget. *)
Lemma improve_sound (E : Core.Env) (w : nat -> nat -> Q) (fuel : nat) (t : list nat) :
  Permutation (fst (Core.improve E w fuel t)) t
  /\ hd_error (fst (Core.improve E w fuel t)) = hd_error t.
Proof.
  revert t. induction fuel as [| fuel IH]; intros t; simpl.
  - split; reflexivity.
  - destruct (Core.improve_step E w t) as [t' |] eqn:S; simpl.
    + destruct (improve_step_sound _ _ _ _ S) as [Hp Hh].
      destruct (IH t') as [Hp' Hh']. split.
      * rewrite Hp'. exact Hp.
      * rewrite Hh'. exact Hh.
    + split; reflexivity.
Qed.

(** The solver returns the depot followed by a permutation of the stops. *)
Lemma solve_tour (E : Core.Env) (w : nat -> nat -> Q) (n : nat) :
  exists rest, fst (Core.solve E w n) = 0 :: rest /\ Permutation rest (seq 1 n).
Proof.
  unfold Core.solve.
  set (t0 := 0 :: Core.construct w n 0 (seq 1 n)).
  destruct (improve_sound E w (Core.budget E) t0) as [Hp Hh].
  destruct (Core.improve E w (Core.budget E) t0) as [t timeout]; simpl in *.
  destruct t as [| a rest]; [ discriminate | ].
  injection Hh as ->. exists rest. split; [ reflexivity | ].
  apply Permutation_cons_inv in Hp. rewrite Hp.
  apply construct_perm. rewrite length_seq. lia.
Qed.

Lemma segments_of_step (E : Core.Env) (addrs : list string)
  (pts : list Coordinates) (a b : nat) (t : list nat) :
  List.length (Core.segments_of E addrs pts (a :: b :: t))
  = S (List.length (Core.segments_of E addrs pts (b :: t))).
Proof. reflexivity. Qed.

Lemma segments_of_length (E : Core.Env) (addrs : list string)
  (pts : list Coordinates) (t : list nat) :
  List.length (Core.segments_of E addrs pts t) = List.length t - 1.
Proof.
  induction t as [| a t IH]; [ reflexivity | ].
  destruct t as [| b t]; [ reflexivity | ].
  rewrite segments_of_step, IH. cbn [List.length]. lia.
Qed.

Lemma resolve_all_length (E : Core.Env) (addrs : list string) (pts : list Coordinates) :
  Core.resolve_all E addrs = Core.Ok pts -> List.length pts = List.length addrs.
Proof.
  revert pts. induction addrs as [| a addrs IH]; intros pts H; simpl in H.
  - injection H as <-. reflexivity.
  - destruct (Core.geocode E a); [ | discriminate ].
    destruct (Core.resolve_all E addrs) as [cs | e]; [ | discriminate ].
    injection H as <-. simpl. f_equal. apply IH. reflexivity.
Qed.

Lemma map_nth_seq (l : list string) (k : nat) (pre : list string) :
  List.length pre = k ->
  map (fun i => nth i (pre ++ l)%list "") (seq k (List.length l)) = l.
Proof.
  revert k pre. induction l as [| x l IH]; intros k pre Hk; [ reflexivity | ].
  cbn [List.length seq map]. f_equal.
  - rewrite app_nth2 by lia. subst k. rewrite Nat.sub_diag. reflexivity.
  - specialize (IH (S k) (pre ++ [x])%list).
    rewrite <- app_assoc in IH. apply IH.
    rewrite length_app. simpl. lia.
Qed.

(** The route built by one policy: depot first, then the stops, each
    once; one segment per stop. *)
Lemma run_policy_route (E : Core.Env) (wt : Core.Weighting) (id : string)
  (v : VehicleInfo) (depot : string) (stop_addrs : list string)
  (pts : list Coordinates) :
  List.length pts = S (List.length stop_addrs) ->
  let r := Core.s_route (Core.run_policy E wt id v (depot :: stop_addrs) pts) in
  (exists rest, ordered_stops r = depot :: rest /\ Permutation rest stop_addrs)
  /\ List.length (segments r) = List.length stop_addrs.
Proof.
  intros Hlen. unfold Core.run_policy.
  set (w := Core.edge_weight E wt pts).
  destruct (solve_tour E w (List.length pts - 1)) as (rest & Ht & Hp).
  destruct (Core.solve E w (List.length pts - 1)) as [t sub]. simpl in Ht. subst t.
  destruct (Core.predict_cost _ _) as [c fb].
  cbn [Core.s_route]. unfold Core.build_route. cbn [ordered_stops segments].
  replace (List.length pts - 1) with (List.length stop_addrs) in Hp by lia.
  split.
  - exists (map (fun i => nth i (depot :: stop_addrs) "") rest).
    split; [ reflexivity | ].
    rewrite (Permutation_map _ Hp).
    change (depot :: stop_addrs) with ([depot] ++ stop_addrs)%list.
    rewrite (map_nth_seq stop_addrs 1 [depot] eq_refl). reflexivity.
  - rewrite segments_of_length. cbn [List.length].
    apply Permutation_length in Hp. rewrite length_seq in Hp. lia.
Qed.

(** C2.  For every valid request the optimize operation returns a result
    whose primary route lists the depot first and then every submitted stop
    exactly once, and has as many segments as there are submitted stops. *)
Theorem C2_primary_route (E : Core.Env) (req : DeliveryRequest) :
  Core.valid_request E req = true ->
  exists res,
    Core.optimize E req = Core.Ok res
    /\ (exists rest,
          ordered_stops (primary_route (Core.dr_response res))
          = start_location req :: rest
          /\ Permutation rest (map address (stops req)))
    /\ List.length (segments (primary_route (Core.dr_response res)))
       = List.length (stops req).
Proof.
  unfold Core.valid_request, Core.optimize. intros Hv.
  apply andb_prop in Hv as [Heff Hres].
  apply negb_true_iff in Heff. rewrite Heff.
  destruct (Core.resolve_all E (start_location req :: map address (stops req)))
    as [pts | e] eqn:R; [ | discriminate ].
  apply Nat.leb_le in Hres.
  destruct (Nat.ltb_spec (List.length (Core.distinct pts)) 2); [ lia | ].
  eexists. split; [ reflexivity | ].
  cbn [Core.dr_response primary_route].
  apply resolve_all_length in R. simpl in R.
  pose proof (run_policy_route E
                {| Core.use_factors := true;
                   Core.w_avoid_peak := Core.flag (avoid_peak_hours req);
                   Core.w_prioritize_safety := Core.flag (prioritize_safety req) |}
                "primary" (vehicle req) (start_location req)
                (map address (stops req)) pts R) as Hroute.
  rewrite length_map in Hroute. exact Hroute.
Qed.

(** ** The decision engine: the cost interval *)

Lemma sqrt_up_nonneg (q : Q) : (0 <= Core.sqrt_up q)%Q.
Proof.
  unfold Core.sqrt_up, Qdiv. apply Qmult_le_0_compat.
  - change 0%Q with (inject_Z 0). rewrite <- Zle_Qle. apply Z.sqrt_up_nonneg.
  - discriminate.
Qed.

Lemma around_ok (p half : Q) (b : CostBreakdown) :
  (0 <= half)%Q ->
  Core.interval_ok {| predicted_cost_usd := p;
                      confidence_lower := p - half;
                      confidence_upper := p + half;
                      cost_breakdown := b |}.
Proof.
  intros H. unfold Core.interval_ok. simpl. split; lra.
Qed.

(** The estimate of the predictor lies within its bounds, with the
    ensemble and in the fallback. *)
Lemma predict_cost_interval (cfg : Core.CostConfig) (f : Core.Features) :
  Core.valid_cost_config cfg ->
  Core.interval_ok (fst (Core.predict_cost cfg f)).
Proof.
  intros [Hz Hr]. unfold Core.predict_cost.
  destruct (Core.ensemble cfg) as [[| e es] |]; cbn [fst]; apply around_ok.
  - apply Qmult_le_0_compat; [ exact Hr | apply Qabs_nonneg ].
  - apply Qmult_le_0_compat; [ exact Hz | apply sqrt_up_nonneg ].
  - apply Qmult_le_0_compat; [ exact Hr | apply Qabs_nonneg ].
Qed.

Lemma priced_valid (cfg : Core.CostConfig) (v : VehicleInfo) :
  Core.valid_cost_config cfg -> Core.valid_cost_config (Core.priced cfg v).
Proof.
  unfold Core.priced. destruct (fuel_price_per_gallon v); trivial.
Qed.

Lemma run_policy_cost (E : Core.Env) (wt : Core.Weighting) (id : string)
  (v : VehicleInfo) (addrs : list string) (pts : list Coordinates) :
  Core.valid_cost_config (Core.cost_config E) ->
  Core.interval_ok (Core.s_cost (Core.run_policy E wt id v addrs pts)).
Proof.
  intros Hc. unfold Core.run_policy.
  destruct (Core.solve _ _ _) as [t sub].
  pose proof (predict_cost_interval (Core.priced (Core.cost_config E) v)
                (Core.features_of E wt v (Core.build_route E id addrs pts t))
                (priced_valid _ v Hc)) as H.
  destruct (Core.predict_cost _ _) as [c fb]. exact H.
Qed.

(** C3.  With a non-negative z-score and fallback ratio, every cost
    prediction of a result of the optimize operation, the primary one and
    the one of each alternative, has its estimate between its lower and
    its upper bound. *)
Theorem C3_confidence_interval (E : Core.Env) (req : DeliveryRequest)
  (res : Core.DecisionResult) :
  Core.valid_cost_config (Core.cost_config E) ->
  Core.optimize E req = Core.Ok res ->
  Core.interval_ok (cost_prediction (Core.dr_response res))
  /\ Forall (fun a => Core.interval_ok (cost a))
            (alternatives (Core.dr_response res)).
Proof.
  intros Hc. unfold Core.optimize.
  destruct (Qle_bool (fuel_efficiency_mpg (vehicle req)) 0); [ discriminate | ].
  destruct (Core.resolve_all E (start_location req :: map address (stops req)))
    as [pts | e]; [ | discriminate ].
  destruct (Nat.ltb (List.length (Core.distinct pts)) 2); [ discriminate | ].
  intros H. injection H as <-. cbn [Core.dr_response cost_prediction alternatives].
  split.
  - apply run_policy_cost, Hc.
  - repeat constructor; cbn [cost]; apply run_policy_cost, Hc.
Qed.

(** ** The theorems at the worked instance *)

Lemma C2_primary_route_witness :
  exists res,
    Core.optimize Example.env Example.request = Core.Ok res
    /\ (exists rest,
          ordered_stops (primary_route (Core.dr_response res)) = "Depot" :: rest
          /\ Permutation rest ["North"; "Near"; "East"])
    /\ List.length (segments (primary_route (Core.dr_response res))) = 3.
Proof.
  apply (C2_primary_route Example.env Example.request).
  vm_compute. reflexivity.
Defined.

Lemma C3_confidence_interval_witness :
  Core.valid_cost_config (Core.cost_config Example.env)
  /\ exists res,
       Core.optimize Example.env Example.request = Core.Ok res
       /\ Core.interval_ok (cost_prediction (Core.dr_response res))
       /\ Forall (fun a => Core.interval_ok (cost a))
                 (alternatives (Core.dr_response res)).
Proof.
  assert (Hc : Core.valid_cost_config (Core.cost_config Example.env)).
  { split; discriminate. }
  split; [ exact Hc | ].
  destruct (Core.optimize Example.env Example.request) as [res | e] eqn:H.
  - exists res. split; [ reflexivity | ].
    exact (C3_confidence_interval Example.env Example.request res Hc H).
  - vm_compute in H. discriminate.
Defined.

Lemma C7_alternative_labels_witness :
  List.length Example.alternative_routes = 3
  /\ nth_error (RouteComparison.headings Example.alternative_routes) 1
     = Some "Safest Route".
Proof.
  split; [ vm_compute; reflexivity | ].
  destruct (nth_error Example.alternative_routes 1) as [alt |] eqn:H.
  - refine (proj1 (C7_alternative_labels Example.alternative_routes 1 alt
                     RouteComparison.SafetyFirst H _ eq_refl)).
    vm_compute in H. injection H as <-. vm_compute. lia.
  - vm_compute in H. discriminate.
Defined.


Lemma C9_pagination_witness :
  JS.toLowerCase "" = ""
  /\ Forall (RiskZonesPage.zone_passes JS.toLowerCase (Some "crime") "MARKET")
            (RiskZonesPage.paginatedZones
               (RiskZonesPage.filteredZonesWith JS.toLowerCase Example.risk_zones
                  (Some "crime") "MARKET") 1).
Proof.
  split; [ reflexivity | ].
  exact (proj1 (proj2 (C9_pagination JS.toLowerCase Example.risk_zones
                         (Some "crime") "MARKET" 1 eq_refl))).
Defined.

(** * Further properties of the sources *)

(** ** The RiskZones page: filtering *)

Lemma filter_all {A : Type} (f : A -> bool) (l : list A) :
  (forall x, f x = true) -> filter f l = l.
Proof.
  intros H. induction l as [| x l IH]; simpl; [ reflexivity | ].
  rewrite H, IH. reflexivity.
Qed.

Lemma filter_twice {A : Type} (f g : A -> bool) (l : list A) :
  filter f (filter g l) = filter (fun x => g x && f x) l.
Proof.
  induction l as [| x l IH]; simpl; [ reflexivity | ].
  destruct (g x); simpl; [ destruct (f x) | ]; rewrite IH; reflexivity.
Qed.

Lemma matchesSearch_empty (z : RiskZone) : RiskZonesPage.matchesSearch "" z = true.
Proof. reflexivity. Qed.

(** X1.  With no type selected (or the empty type) and an empty query the page
    lists every zone, in the order received. *)
Theorem no_filter_lists_all (riskZones : list RiskZone) :
  RiskZonesPage.filteredZones riskZones None "" = riskZones
  /\ RiskZonesPage.filteredZones riskZones (Some "") "" = riskZones.
Proof.
  split; apply filter_all; reflexivity.
Qed.

(** X2.  The type filter and the search filter are independent: filtering by
    type and then searching in the result, or searching first and then
    filtering by type, gives the list filtered by both at once; and
    filtering a filtered list again changes nothing. *)
Theorem filters_compose (riskZones : list RiskZone) (t : option string) (q : string) :
  RiskZonesPage.filteredZones (RiskZonesPage.filteredZones riskZones t "") None q
  = RiskZonesPage.filteredZones riskZones t q
  /\ RiskZonesPage.filteredZones (RiskZonesPage.filteredZones riskZones None q) t ""
     = RiskZonesPage.filteredZones riskZones t q
  /\ RiskZonesPage.filteredZones (RiskZonesPage.filteredZones riskZones t q) t q
     = RiskZonesPage.filteredZones riskZones t q.
Proof.
  unfold RiskZonesPage.filteredZones. rewrite !filter_twice.
  repeat split; apply filter_ext; intros z; simpl;
    destruct (RiskZonesPage.matchesType t z), (RiskZonesPage.matchesSearch q z);
    reflexivity.
Qed.

(** ** The RiskZones page: the size of the pages *)

Lemma totalPages_tight (f : list RiskZone) :
  (9 * (RiskZonesPage.totalPages f - 1) < Z.of_nat (List.length f))%Z.
Proof.
  unfold RiskZonesPage.totalPages, RiskZonesPage.ZONES_PER_PAGE.
  set (n := Z.of_nat (List.length f)).
  pose proof (Qceiling_lt (inject_Z n / inject_Z 9)) as H.
  set (t := Qceiling (inject_Z n / inject_Z 9)) in *.
  apply (Qmult_lt_compat_r _ _ (inject_Z 9)) in H; [ | reflexivity ].
  unfold Qdiv in H.
  rewrite <- Qmult_assoc, (Qmult_comm (/ inject_Z 9)), Qmult_inv_r, Qmult_1_r in H
    by discriminate.
  rewrite <- inject_Z_mult in H. rewrite <- Zlt_Qlt in H. lia.
Qed.

(** The length of a page with a positive number. *)
Lemma page_length (f : list RiskZone) (k : nat) :
  List.length (RiskZonesPage.paginatedZones f (Z.of_nat k + 1))
  = Nat.min 9 (List.length f - 9 * k).
Proof.
  unfold RiskZonesPage.paginatedZones, RiskZonesPage.ZONES_PER_PAGE.
  replace ((Z.of_nat k + 1 - 1) * 9)%Z with (Z.of_nat (9 * k)) by lia.
  replace ((Z.of_nat k + 1) * 9)%Z with (Z.of_nat (9 * k + 9)) by lia.
  rewrite slice_nat, length_firstn, length_skipn. reflexivity.
Qed.

Lemma page_length_Z (f : list RiskZone) (p : Z) :
  (1 <= p)%Z ->
  Z.of_nat (List.length (RiskZonesPage.paginatedZones f p))
  = Z.max 0 (Z.min 9 (Z.of_nat (List.length f) - 9 * (p - 1))).
Proof.
  intros Hp. replace p with (Z.of_nat (Z.to_nat (p - 1)) + 1)%Z at 1 by lia.
  rewrite page_length. lia.
Qed.

Lemma page_zero (f : list RiskZone) : RiskZonesPage.paginatedZones f 0 = [].
Proof.
  unfold RiskZonesPage.paginatedZones, RiskZonesPage.ZONES_PER_PAGE, JS.slice.
  simpl. replace (Z.to_nat _) with 0.
  - reflexivity.
  - lia.
Qed.

(** X3.  Every page before the last holds exactly 9 zones, the last page holds
    between 1 and 9, every page past the last is empty, and so is page 0;
    there is no page exactly when no zone passes the filter. *)
Theorem page_sizes (f : list RiskZone) :
  let total := RiskZonesPage.totalPages f in
  (forall p, (1 <= p < total)%Z ->
             List.length (RiskZonesPage.paginatedZones f p) = 9)
  /\ (forall p, p = total -> (1 <= p)%Z ->
                1 <= List.length (RiskZonesPage.paginatedZones f p) <= 9)
  /\ (forall p, (total < p)%Z -> RiskZonesPage.paginatedZones f p = [])
  /\ RiskZonesPage.paginatedZones f 0 = []
  /\ (total = 0%Z <-> f = []).
Proof.
  cbv zeta.
  pose proof (totalPages_covers f) as Hc. pose proof (totalPages_tight f) as Ht.
  set (total := RiskZonesPage.totalPages f) in *.
  split; [ | split; [ | split; [ | split; [ | split ] ] ] ].
  - intros p Hp. pose proof (page_length_Z f p ltac:(lia)). lia.
  - intros p -> Hp. pose proof (page_length_Z f total ltac:(lia)). lia.
  - intros p Hp. apply length_zero_iff_nil.
    destruct (Z.le_gt_cases 1 p) as [H1 | H1].
    + pose proof (page_length_Z f p H1). lia.
    + assert (Hf : List.length f = 0) by lia.
      apply length_zero_iff_nil in Hf. rewrite Hf.
      unfold RiskZonesPage.paginatedZones, JS.slice.
      rewrite skipn_nil, firstn_nil. reflexivity.
  - apply page_zero.
  - intros H0. apply length_zero_iff_nil. lia.
  - intros Hf. subst total. rewrite Hf. reflexivity.
Qed.

(** ** The RiskZones page: the counts on the chips *)

Lemma chipCount_bump (k k' : string) (acc : list (string * Z)) :
  RiskZonesPage.chipCount k (RiskZonesPage.bump k' acc)
  = if String.eqb k' k
    then Some (match RiskZonesPage.chipCount k acc with
               | Some n => n + 1
               | None => 1
               end)%Z
    else RiskZonesPage.chipCount k acc.
Proof.
  unfold RiskZonesPage.chipCount.
  induction acc as [| [k0 n] acc IH]; simpl.
  - destruct (String.eqb_spec k' k) as [-> | Hne]; reflexivity.
  - destruct (String.eqb_spec k0 k') as [-> | Hne]; simpl.
    + destruct (String.eqb_spec k' k) as [-> | Hne']; simpl; [ | reflexivity ].
      f_equal. destruct (Z.eqb_spec n 0); lia.
    + destruct (String.eqb_spec k0 k) as [-> | Hne']; simpl.
      * destruct (String.eqb_spec k' k); [ congruence | reflexivity ].
      * exact IH.
Qed.

Lemma bump_keys (k : string) (acc : list (string * Z)) :
  map fst (RiskZonesPage.bump k acc)
  = if existsb (String.eqb k) (map fst acc) then map fst acc
    else (map fst acc ++ [k])%list.
Proof.
  induction acc as [| [k0 n] acc IH]; simpl; [ reflexivity | ].
  rewrite (String.eqb_sym k k0).
  destruct (String.eqb k0 k); simpl; [ reflexivity | ].
  rewrite IH. destruct (existsb (String.eqb k) (map fst acc)); reflexivity.
Qed.

Lemma bump_NoDup (k : string) (acc : list (string * Z)) :
  NoDup (map fst acc) -> NoDup (map fst (RiskZonesPage.bump k acc)).
Proof.
  intros H. rewrite bump_keys.
  destruct (existsb (String.eqb k) (map fst acc)) eqn:E; [ exact H | ].
  apply NoDup_app; [ exact H | repeat constructor; intros [] | ].
  intros x Hx [Ek | []]. subst x.
  assert (existsb (String.eqb k) (map fst acc) = true); [ | congruence ].
  apply existsb_exists. exists k. split; [ exact Hx | apply String.eqb_refl ].
Qed.

Lemma zoneCounts_snoc (l : list RiskZone) (z : RiskZone) :
  RiskZonesPage.zoneCounts (l ++ [z])
  = RiskZonesPage.bump (zone_type_string (zone_type z)) (RiskZonesPage.zoneCounts l).
Proof.
  unfold RiskZonesPage.zoneCounts. rewrite fold_left_app. reflexivity.
Qed.

Lemma zone_type_string_truthy (t : ZoneType) : JS.truthy (zone_type_string t) = true.
Proof. destruct t; reflexivity. Qed.

Lemma filtered_by_type (l : list RiskZone) (t : ZoneType) :
  RiskZonesPage.filteredZones l (Some (zone_type_string t)) ""
  = filter (fun z => String.eqb (zone_type_string (zone_type z)) (zone_type_string t)) l.
Proof.
  unfold RiskZonesPage.filteredZones. apply filter_ext. intros z.
  unfold RiskZonesPage.matchesType. rewrite zone_type_string_truthy.
  simpl. apply andb_true_r.
Qed.

(** X4.  The chip of a zone type exists exactly when some zone has that type,
    and the count on it is the number of zones listed when the chip is
    selected (with an empty search); no type has two chips. *)
Theorem chip_counts (riskZones : list RiskZone) (t : ZoneType) :
  let listed := RiskZonesPage.filteredZones riskZones (Some (zone_type_string t)) "" in
  match RiskZonesPage.chipCount (zone_type_string t)
          (RiskZonesPage.zoneCounts riskZones) with
  | Some n => n = Z.of_nat (List.length listed) /\ (1 <= n)%Z
  | None => listed = []
  end
  /\ NoDup (map fst (RiskZonesPage.zoneCounts riskZones)).
Proof.
  cbv zeta. rewrite filtered_by_type.
  induction riskZones as [| z l IH] using rev_ind.
  - split; [ reflexivity | constructor ].
  - destruct IH as [IH Hnd]. rewrite zoneCounts_snoc. split.
    + rewrite chipCount_bump, filter_app, length_app. simpl.
      destruct (String.eqb_spec (zone_type_string (zone_type z)) (zone_type_string t))
        as [E | E]; simpl.
      * destruct (RiskZonesPage.chipCount _ _) as [n |].
        -- destruct IH as [-> Hn]. split; lia.
        -- rewrite IH. simpl. split; lia.
      * rewrite app_nil_r, Nat.add_0_r. exact IH.
    + apply bump_NoDup, Hnd.
Qed.

(** ** The RiskZones page: label and badge *)

(** X6.  The label and the badge colour of a level are always one of the four
    pairs Low/green, Medium/yellow, High/orange, Critical/red, for every
    level and not only the integers. *)
Theorem label_badge_agree (level : Q) :
  In (RiskZonesPage.getRiskLabel level, RiskZonesPage.getRiskBadgeColor level)
     [ ("Low", "bg-green-500/20 text-green-400");
       ("Medium", "bg-yellow-500/20 text-yellow-400");
       ("High", "bg-orange-500/20 text-orange-400");
       ("Critical", "bg-red-500/20 text-red-400") ].
Proof.
  unfold RiskZonesPage.getRiskLabel, RiskZonesPage.getRiskBadgeColor.
  destruct (JS.leb level 3); [ simpl; tauto | ].
  destruct (JS.leb level 5); [ simpl; tauto | ].
  destruct (JS.leb level 7); simpl; tauto.
Qed.

(** ** The RiskZones page: the current page *)

Lemma pageNumbers_In (total p : Z) :
  In p (RiskZonesPage.pageNumbers total) <-> (1 <= p <= total)%Z.
Proof.
  unfold RiskZonesPage.pageNumbers. rewrite in_map_iff. split.
  - intros (i & <- & Hi). apply in_seq in Hi. lia.
  - intros Hp. exists (Z.to_nat (p - 1)). split; [ lia | ].
    apply in_seq. lia.
Qed.

Lemma setFilter_in_range (zs : list RiskZone) (t : option string) (q : string)
  (st : RiskZonesPage.PageState) :
  RiskZonesPage.page_in_range zs st -> RiskZonesPage.page_in_range zs (RiskZonesPage.setFilter t q st).
Proof.
  unfold RiskZonesPage.setFilter. intros H.
  destruct (_ && _); [ exact H | ].
  unfold RiskZonesPage.page_in_range. simpl. lia.
Qed.

Lemma dispatch_in_range (zs : list RiskZone) (st : RiskZonesPage.PageState)
  (e : RiskZonesPage.PageEvent) :
  RiskZonesPage.page_in_range zs st -> RiskZonesPage.page_in_range zs (RiskZonesPage.dispatch zs st e).
Proof.
  intros H. destruct e as [| t | q | | | page]; simpl.
  - apply setFilter_in_range, H.
  - destruct (existsb _ _); [ apply setFilter_in_range, H | exact H ].
  - apply setFilter_in_range, H.
  - destruct (Z.ltb_spec 1 (RiskZonesPage.totalPages
       (RiskZonesPage.filteredZones zs (RiskZonesPage.selectedType st)
          (RiskZonesPage.searchQuery st)))); simpl; [ | exact H ].
    destruct (negb _); [ | exact H ].
    unfold RiskZonesPage.page_in_range in *. simpl. lia.
  - destruct (Z.ltb_spec 1 (RiskZonesPage.totalPages
       (RiskZonesPage.filteredZones zs (RiskZonesPage.selectedType st)
          (RiskZonesPage.searchQuery st)))); simpl; [ | exact H ].
    destruct (negb _); [ | exact H ].
    unfold RiskZonesPage.page_in_range in *. simpl. lia.
  - destruct (Z.ltb_spec 1 (RiskZonesPage.totalPages
       (RiskZonesPage.filteredZones zs (RiskZonesPage.selectedType st)
          (RiskZonesPage.searchQuery st)))); simpl; [ | exact H ].
    destruct (existsb _ _) eqn:E; [ | exact H ].
    apply existsb_exists in E as (x & Hx & Ex). apply Z.eqb_eq in Ex. subst x.
    apply pageNumbers_In in Hx.
    unfold RiskZonesPage.page_in_range in *. simpl. lia.
Qed.

(** X7.  After every sequence of clicks and searches (and once the effect that
    resets the page has run), the current page lies between 1 and the
    number of pages, so the "No zones found" card is shown exactly when no
    zone passes the filter. *)
Theorem page_stays_in_range (riskZones : list RiskZone)
  (es : list RiskZonesPage.PageEvent) :
  let st := RiskZonesPage.run riskZones es in
  let filtered := RiskZonesPage.filteredZones riskZones
                    (RiskZonesPage.selectedType st) (RiskZonesPage.searchQuery st) in
  (1 <= RiskZonesPage.currentPage st
   <= Z.max 1 (RiskZonesPage.totalPages filtered))%Z
  /\ (RiskZonesPage.noZonesFound riskZones st = true <-> filtered = []).
Proof.
  cbv zeta.
  assert (H : RiskZonesPage.page_in_range riskZones (RiskZonesPage.run riskZones es)).
  { unfold RiskZonesPage.run.
    assert (Hgen : forall st, RiskZonesPage.page_in_range riskZones st ->
                   RiskZonesPage.page_in_range riskZones
                     (fold_left (RiskZonesPage.dispatch riskZones) es st)).
    { induction es as [| e es IH]; intros st H0; simpl; [ exact H0 | ].
      apply IH, dispatch_in_range, H0. }
    apply Hgen. unfold RiskZonesPage.page_in_range, RiskZonesPage.initialState.
    cbn [RiskZonesPage.currentPage]. lia. }
  split; [ exact H | ].
  unfold RiskZonesPage.noZonesFound, RiskZonesPage.shownZones.
  set (st := RiskZonesPage.run riskZones es) in *.
  unfold RiskZonesPage.page_in_range in H.
  set (f := RiskZonesPage.filteredZones riskZones _ _) in *.
  rewrite Nat.eqb_eq.
  pose proof (page_length_Z f (RiskZonesPage.currentPage st) ltac:(lia)) as Hl.
  pose proof (totalPages_covers f). pose proof (totalPages_tight f).
  split.
  - intros E. apply length_zero_iff_nil. lia.
  - intros E. assert (List.length f = 0) by (rewrite E; reflexivity). lia.
Qed.

(** ** The route map *)







Lemma slice_tail {A : Type} (l : list A) :
  JS.slice l 1 (Z.of_nat (List.length l)) = tl l.
Proof.
  destruct l as [| x l]; [ reflexivity | ].
  change 1%Z with (Z.of_nat 1).
  replace (List.length (x :: l)) with (1 + List.length l) by reflexivity.
  rewrite slice_nat. simpl. apply firstn_all.
Qed.

(** X10.  The delivery markers: one for each coordinate after the first,
    numbered 1, 2, ... in route order, each at its coordinate and carrying
    the stop of the same rank; exactly the last one is the red final stop.
    The start marker cannot be built exactly when the route has no
    coordinates. *)
Theorem delivery_markers (r : OptimizedRoute) :
  List.length (RouteMap.deliveryMarkers r) = List.length (coordinates r) - 1
  /\ (forall i m,
        nth_error (RouteMap.deliveryMarkers r) i = Some m ->
        RouteMap.marker_number m = (Z.of_nat i + 1)%Z
        /\ option_map (fun c => (lat c, lng c)) (nth_error (coordinates r) (S i))
           = Some (RouteMap.marker_position m)
        /\ RouteMap.marker_address m = nth_error (ordered_stops r) (S i)
        /\ (RouteMap.marker_color m = "#ef4444"
            <-> S i = List.length (RouteMap.deliveryMarkers r))
        /\ (RouteMap.marker_color m = "#3b82f6"
            <-> S i <> List.length (RouteMap.deliveryMarkers r)))
  /\ (RouteMap.startMarker r = None <-> coordinates r = []).
Proof.
  assert (Hlen : forall (f : Coordinates -> nat -> RouteMap.MarkerView) k l,
             List.length (JS.mapi f k l) = List.length l).
  { intros f k l. revert k. induction l; intros k; simpl; [ | rewrite IHl ]; reflexivity. }
  unfold RouteMap.deliveryMarkers. rewrite slice_tail.
  split; [ | split ].
  - rewrite Hlen. destruct (coordinates r); simpl; lia.
  - intros i m Hm. rewrite nth_error_mapi in Hm. rewrite Hlen.
    destruct (nth_error (tl (coordinates r)) i) as [c |] eqn:Hc; [ | discriminate ].
    simpl in Hm. injection Hm as <-. cbn [RouteMap.marker_number
      RouteMap.marker_position RouteMap.marker_address RouteMap.marker_color].
    assert (Hi : i < List.length (tl (coordinates r))).
    { apply nth_error_Some. congruence. }
    destruct (coordinates r) as [| c0 cs]; [ simpl in Hi; lia | ].
    simpl in Hc, Hi. cbn [nth_error tl]. rewrite Hc. rewrite Nat.add_1_r.
    split; [ reflexivity | ]. split; [ reflexivity | ]. split; [ reflexivity | ].
    cbn [List.length].
    destruct (Z.eqb_spec (Z.of_nat i) (Z.of_nat (S (List.length cs)) - 2)).
    + split; split; intros; try reflexivity; try lia; try discriminate.
    + split; split; intros; try reflexivity; try lia; try discriminate.
  - unfold RouteMap.startMarker. destruct (coordinates r); split; intros;
      try reflexivity; try discriminate.
Qed.

(** X11.  The three colour tables agree on the four zone types: the colour of a
    zone on the route map, on the risk-zones map and of its slice in the
    pie chart (whose name is the capitalized type) are the same. *)
Theorem zone_colours_agree (t : ZoneType) :
  RouteMap.getZoneColor (zone_type_string t) = RiskZonesPage.zoneColor t
  /\ CostDashboard.cellColor (JS.capitalize (zone_type_string t))
     = RiskZonesPage.zoneColor t
  /\ RiskZonesPage.zoneColor t <> "#6b7280".
Proof.
  destruct t; repeat split; discriminate.
Qed.

(** ** Route comparison: rounding and wording *)

Lemma Qfloor_unit (y : Q) : (0 <= y)%Q -> (y < 1)%Q -> Qfloor y = 0%Z.
Proof.
  intros H0 H1.
  pose proof (Qfloor_le y) as Hl. pose proof (Qlt_floor y) as Hu.
  assert (A : (inject_Z (Qfloor y) < inject_Z 1)%Q).
  { eapply Qle_lt_trans; [ exact Hl | exact H1 ]. }
  assert (B : (inject_Z (-1 + 1) < inject_Z (Qfloor y + 1))%Q).
  { eapply Qle_lt_trans; [ exact H0 | exact Hu ]. }
  rewrite <- Zlt_Qlt in A, B. lia.
Qed.

Lemma ltb_false_ge (x y : Q) : (y <= x)%Q -> JS.ltb x y = false.
Proof.
  intros H. destruct (JS.ltb x y) eqn:E; [ | reflexivity ].
  apply ltb_lt in E. exfalso. exact (Qlt_not_le _ _ E H).
Qed.


(** [toFixed(0)] of a number in [0, 0.5) is "0", and [toFixed(1)] of a
    number in [0, 0.05) is "0.0". *)
Lemma toFixed0_small (x : Q) : (0 <= x)%Q -> (x < 1 # 2)%Q -> JS.toFixed 0 x = "0".
Proof.
  intros H0 H1. unfold JS.toFixed. rewrite (ltb_false_ge x 0 H0).
  change (inject_Z (10 ^ Z.of_nat 0)) with 1%Q.
  rewrite Qfloor_unit; [ reflexivity | | ]; rewrite (Qabs_pos x H0); lra.
Qed.

Lemma toFixed1_small (x : Q) : (0 <= x)%Q -> (x < 1 # 20)%Q -> JS.toFixed 1 x = "0.0".
Proof.
  intros H0 H1. unfold JS.toFixed. rewrite (ltb_false_ge x 0 H0).
  change (inject_Z (10 ^ Z.of_nat 1)) with 10%Q.
  rewrite Qfloor_unit; [ reflexivity | | ]; rewrite (Qabs_pos x H0); lra.
Qed.

Lemma prefix_append (s t : string) : prefix s (s ++ t) = true.
Proof.
  induction s as [| c s IH]; simpl; [ destruct t; reflexivity | ].
  destruct (ascii_dec c c); [ exact IH | contradiction ].
Qed.

Lemma ltb_0_sub_l (x y : Q) : JS.ltb 0 (x - y) = JS.ltb y x.
Proof.
  destruct (JS.ltb y x) eqn:E.
  - apply ltb_lt in E. apply ltb_lt. lra.
  - destruct (JS.ltb 0 (x - y)) eqn:E'; [ | reflexivity ].
    apply ltb_lt in E'. assert (L : (y < x)%Q) by lra.
    apply ltb_lt in L. congruence.
Qed.

Lemma ltb_sub_0_l (x y : Q) : JS.ltb (x - y) 0 = JS.ltb x y.
Proof.
  destruct (JS.ltb x y) eqn:E.
  - apply ltb_lt in E. apply ltb_lt. lra.
  - destruct (JS.ltb (x - y) 0) eqn:E'; [ | reflexivity ].
    apply ltb_lt in E'. assert (L : (x < y)%Q) by lra.
    apply ltb_lt in L. congruence.
Qed.

Lemma ltb_false_le (x y : Q) : JS.ltb x y = false -> (y <= x)%Q.
Proof.
  intros E. apply Qnot_lt_le. intros L. apply ltb_lt in L. congruence.
Qed.

(** X12.  The wording of [calculateSavings] follows the order of the two costs:
    it is "Same cost" exactly when they are equal, it starts with
    "Save Rs. " exactly when the alternative is cheaper and with "+Rs. "
    exactly when it is dearer. *)
Theorem savings_wording (primaryRoute : RouteComparison.PrimaryRoute) (altCost : Q) :
  let text := RouteComparison.calculateSavings primaryRoute altCost in
  (text = "Same cost" <-> (RouteComparison.pr_cost primaryRoute == altCost)%Q)
  /\ (prefix "Save Rs. " text = true
      <-> (altCost < RouteComparison.pr_cost primaryRoute)%Q)
  /\ (prefix "+Rs. " text = true
      <-> (RouteComparison.pr_cost primaryRoute < altCost)%Q).
Proof.
  cbv zeta. unfold RouteComparison.calculateSavings.
  set (c := RouteComparison.pr_cost primaryRoute).
  rewrite ltb_0_sub_l, ltb_sub_0_l.
  destruct (JS.ltb altCost c) eqn:E1.
  - apply ltb_lt in E1.
    split; [ | split ].
    + split; [ discriminate | intros E; rewrite E in E1; exfalso; lra ].
    + rewrite prefix_append. split; [ intros _; exact E1 | reflexivity ].
    + split; [ discriminate | intros L; exfalso; lra ].
  - apply ltb_false_le in E1.
    destruct (JS.ltb c altCost) eqn:E2.
    + apply ltb_lt in E2.
      split; [ | split ].
      * split; [ discriminate | intros E; rewrite E in E2; exfalso; lra ].
      * split; [ discriminate | intros L; exfalso; lra ].
      * change ("+Rs. " ++ JS.toFixed 0 (Qabs (c - altCost)) ++ " more")
          with ("+Rs. " ++ (JS.toFixed 0 (Qabs (c - altCost)) ++ " more")).
        rewrite prefix_append. split; [ intros _; exact E2 | reflexivity ].
    + apply ltb_false_le in E2.
      split; [ | split ].
      * split; [ intros _; lra | reflexivity ].
      * split; [ discriminate | intros L; exfalso; lra ].
      * split; [ discriminate | intros L; exfalso; lra ].
Qed.

(** X13.  Costs that differ by at most 0.49 are worded as a saving, or a
    surcharge, of zero: "Save Rs. 0" and "+Rs. 0 more".  (The bound stays
    clear of one half, where the rounding of the subtraction decides.) *)
Theorem savings_round_to_zero (primaryRoute : RouteComparison.PrimaryRoute) (altCost : Q) :
  (RouteComparison.pr_cost primaryRoute - altCost <= 49 # 100)%Q ->
  (altCost - RouteComparison.pr_cost primaryRoute <= 49 # 100)%Q ->
  RouteComparison.calculateSavings primaryRoute altCost
  = if JS.ltb altCost (RouteComparison.pr_cost primaryRoute) then "Save Rs. 0"
    else if JS.ltb (RouteComparison.pr_cost primaryRoute) altCost then "+Rs. 0 more"
    else "Same cost".
Proof.
  intros Hu Hl. unfold RouteComparison.calculateSavings.
  set (c := RouteComparison.pr_cost primaryRoute) in *.
  assert (Hsmall : JS.toFixed 0 (Qabs (c - altCost)) = "0").
  { apply toFixed0_small; [ apply Qabs_nonneg | ].
    apply Qabs_Qlt_condition. split; lra. }
  rewrite Hsmall, ltb_0_sub_l, ltb_sub_0_l. reflexivity.
Qed.

(** X14.  Values that differ by at least 0.011 and at most 0.049 are not
    "Same" but their difference is printed as zero: "+0.0" and the unit
    when the alternative is larger, "0.0" and the unit when it is smaller.
    (The bounds stay clear of 0.01 and 0.05, where the rounding of the
    subtraction decides.) *)
Theorem difference_text_rounds_to_zero (primary alternative : Q) (unit : string)
  (lowerIsBetter : bool) :
  (11 # 1000 <= Qabs (alternative - primary))%Q ->
  (Qabs (alternative - primary) <= 49 # 1000)%Q ->
  RouteComparison.getDifferenceText primary alternative unit lowerIsBetter
  = (if JS.ltb primary alternative then "+0.0" else "0.0") ++ unit.
Proof.
  intros Hl Hu.
  rewrite getDifferenceText_far by (apply ltb_false_ge; lra).
  rewrite toFixed1_small by (try apply Qabs_nonneg; lra).
  rewrite ltb_0_sub_l.
  destruct (JS.ltb primary alternative); reflexivity.
Qed.

(** ** Route comparison: direction and headings *)






Lemma append_inj_l (s x y : string) : s ++ x = s ++ y -> x = y.
Proof.
  induction s as [| c s IH]; simpl; intros H; [ exact H | ].
  injection H as H. apply IH, H.
Qed.

Lemma digits_inj (a b : Z) :
  (0 <= a)%Z -> (0 <= b)%Z -> JS.digits a = JS.digits b -> a = b.
Proof.
  unfold JS.digits. intros Ha Hb H.
  assert (E : N.to_uint (Z.to_N a) = N.to_uint (Z.to_N b)).
  { pose proof (NilEmpty.usu (N.to_uint (Z.to_N a))) as Ua.
    pose proof (NilEmpty.usu (N.to_uint (Z.to_N b))) as Ub.
    rewrite H in Ua. congruence. }
  apply (f_equal N.of_uint) in E.
  rewrite !DecimalN.Unsigned.of_to in E. lia.
Qed.

Lemma fallback_name (i : nat) :
  3 <= i ->
  RouteComparison.getAlternativeName i
  = "Alternative " ++ JS.digits (Z.of_nat i + 1).
Proof.
  intros H. unfold RouteComparison.getAlternativeName, JS.string_of_int.
  destruct (Z.ltb_spec (Z.of_nat i + 1) 0); [ lia | ].
  destruct i as [| [| [| i]]]; try lia. simpl nth_error.
  destruct i; reflexivity.
Qed.

(** X16.  Two positions have the same name only if they are the same position:
    the three fixed names are distinct, and from the fourth position on the
    name is "Alternative" followed by the rank. *)
Theorem alternative_names_distinct (i j : nat) :
  (RouteComparison.getAlternativeName i = RouteComparison.getAlternativeName j
   <-> i = j)
  /\ (3 <= i -> RouteComparison.getAlternativeName i
                = "Alternative " ++ JS.string_of_int (Z.of_nat i + 1))
  /\ RouteComparison.getAlternativeName i <> "".
Proof.
  split; [ | split ].
  - split; [ | intros ->; reflexivity ].
    destruct (Nat.lt_ge_cases i 3) as [Hi | Hi], (Nat.lt_ge_cases j 3) as [Hj | Hj].
    + destruct i as [| [| [| i]]], j as [| [| [| j]]]; try lia;
        simpl; intros H; try reflexivity; discriminate.
    + rewrite (fallback_name j Hj).
      destruct i as [| [| [| i]]]; try lia; simpl; discriminate.
    + rewrite (fallback_name i Hi).
      destruct j as [| [| [| j]]]; try lia; simpl; discriminate.
    + rewrite (fallback_name i Hi), (fallback_name j Hj). intros H.
      apply append_inj_l, digits_inj in H; lia.
  - intros Hi. rewrite (fallback_name i Hi). unfold JS.string_of_int.
    destruct (Z.ltb_spec (Z.of_nat i + 1) 0); [ lia | reflexivity ].
  - destruct (Nat.lt_ge_cases i 3) as [Hi | Hi].
    + destruct i as [| [| [| i]]]; try lia; discriminate.
    + rewrite (fallback_name i Hi). discriminate.
Qed.




(** ** The delivery form: editing the stops *)

Lemma filteri_exact {A : Type} (l : list A) (k j : nat) :
  JS.filteri (fun (_ : A) i => negb (Z.of_nat i =? Z.of_nat (k + j))%Z) k l
  = (firstn j l ++ skipn (S j) l)%list.
Proof.
  revert k j. induction l as [| x l IH]; intros k j.
  - simpl. rewrite firstn_nil. reflexivity.
  - cbn [JS.filteri]. destruct j as [| j].
    + rewrite Nat.add_0_r, Z.eqb_refl. cbn [negb firstn skipn app].
      apply filteri_past. lia.
    + destruct (Z.eqb_spec (Z.of_nat k) (Z.of_nat (k + S j))); [ lia | ].
      cbn [negb firstn skipn app]. f_equal.
      replace (k + S j) with (S k + j) by lia. apply IH.
Qed.

Lemma filteri_exact_Z {A : Type} (l : list A) (index : Z) :
  (0 <= index)%Z ->
  JS.filteri (fun (_ : A) i => negb (Z.of_nat i =? index)%Z) 0 l
  = (firstn (Z.to_nat index) l ++ skipn (S (Z.to_nat index)) l)%list.
Proof.
  intros H. pose proof (filteri_exact l 0 (Z.to_nat index)) as E.
  replace (Z.of_nat (0 + Z.to_nat index)) with index in E by lia. exact E.
Qed.

Lemma setStops_same (st : FormState) : setStops (form_stops st) st = st.
Proof. destruct st; reflexivity. Qed.

Lemma removed_out_of_range {A : Type} (l : list A) (j : nat) :
  List.length l <= j -> (firstn j l ++ skipn (S j) l)%list = l.
Proof.
  intros H. rewrite firstn_all2 by lia. rewrite skipn_all2 by lia.
  apply app_nil_r.
Qed.

Lemma removeStop_exact (index : Z) (st : FormState) :
  DeliveryForm.removeStop index st
  = if Nat.ltb 1 (List.length (form_stops st))
       && (0 <=? index)%Z && (index <? Z.of_nat (List.length (form_stops st)))%Z
    then setStops (firstn (Z.to_nat index) (form_stops st)
                   ++ skipn (S (Z.to_nat index)) (form_stops st))%list st
    else st.
Proof.
  unfold DeliveryForm.removeStop.
  destruct (Nat.ltb 1 (List.length (form_stops st))); [ | reflexivity ].
  cbn [andb]. destruct (Z.leb_spec 0 index) as [H0 | H0]; cbn [andb].
  - rewrite filteri_exact_Z by exact H0.
    destruct (Z.ltb_spec index (Z.of_nat (List.length (form_stops st)))); [ reflexivity | ].
    rewrite removed_out_of_range by lia. apply setStops_same.
  - rewrite filteri_past by lia. apply setStops_same.
Qed.

(** X18.  Removing a stop takes out exactly the stop at the given position and
    keeps the others in order, provided the form has at least two stops
    and the position exists; otherwise nothing changes.  Both variants
    behave alike. *)
Theorem remove_stop_exact (index : Z) (st : FormState) :
  let l := form_stops st in
  let i := Z.to_nat index in
  DeliveryForm.removeStop index st
  = (if Nat.ltb 1 (List.length l) && (0 <=? index)%Z
        && (index <? Z.of_nat (List.length l))%Z
     then setStops (firstn i l ++ skipn (S i) l)%list st
     else st)
  /\ DeliveryFormV2.removeStop index st = DeliveryForm.removeStop index st
  /\ (List.length (form_stops (DeliveryForm.removeStop index st))
      = if Nat.ltb 1 (List.length l) && (0 <=? index)%Z
           && (index <? Z.of_nat (List.length l))%Z
        then List.length l - 1 else List.length l).
Proof.
  cbv zeta. split; [ apply removeStop_exact | ]. split; [ reflexivity | ].
  rewrite removeStop_exact.
  destruct (Nat.ltb_spec 1 (List.length (form_stops st))); cbn [andb]; [ | reflexivity ].
  destruct (Z.leb_spec 0 index); cbn [andb]; [ | reflexivity ].
  destruct (Z.ltb_spec index (Z.of_nat (List.length (form_stops st)))); [ | reflexivity ].
  cbn [form_stops setStops]. rewrite length_app, length_firstn, length_skipn. lia.
Qed.

Lemma assign_address_nth (a : list DeliveryStop) (i : nat) (addr : string)
  (r : list DeliveryStop) :
  assign_address a i addr = Some r ->
  forall j, nth_error r j
            = if Nat.eqb j i then option_map (with_address addr) (nth_error a j)
              else nth_error a j.
Proof.
  revert i r. induction a as [| s a IH]; intros i r H j; simpl in H.
  - discriminate.
  - destruct i as [| i].
    + injection H as <-. destruct j; reflexivity.
    + destruct (assign_address a i addr) as [r' |] eqn:E; [ | discriminate ].
      injection H as <-. destruct j as [| j]; [ reflexivity | ].
      simpl. apply (IH i r' E j).
Qed.

Lemma assign_address_none (a : list DeliveryStop) (i : nat) (addr : string) :
  assign_address a i addr = None <-> List.length a <= i.
Proof.
  revert i. induction a as [| s a IH]; intros i; simpl.
  - split; [ lia | reflexivity ].
  - destruct i as [| i]; [ split; [ discriminate | lia ] | ].
    specialize (IH i). destruct (assign_address a i addr).
    + split; [ discriminate | ]. intros H. apply le_S_n, IH in H. discriminate.
    + split; [ | reflexivity ]. intros _. apply le_n_S, IH. reflexivity.
Qed.

(** X19.  Editing the address of a stop succeeds exactly when the position
    exists; then the stop at that position has the new address and its
    time window and priority as before, every other stop and every other
    field of the form is unchanged, and the number of stops is the same.
    At a position that does not exist the handler throws. *)
Theorem update_stop_exact (index : Z) (addr : string) (st : FormState) :
  match DeliveryForm.updateStop index addr st with
  | Some st' =>
      (0 <= index < Z.of_nat (List.length (form_stops st)))%Z
      /\ List.length (form_stops st') = List.length (form_stops st)
      /\ (forall j, nth_error (form_stops st') j
                    = if Nat.eqb j (Z.to_nat index)
                      then option_map (with_address addr) (nth_error (form_stops st) j)
                      else nth_error (form_stops st) j)
      /\ st' = setStops (form_stops st') st
  | None => (index < 0)%Z \/ (Z.of_nat (List.length (form_stops st)) <= index)%Z
  end
  /\ DeliveryFormV2.updateStop index addr st = DeliveryForm.updateStop index addr st.
Proof.
  split; [ | reflexivity ]. unfold DeliveryForm.updateStop.
  destruct (Z.ltb_spec index 0) as [Hn | Hn]; [ left; exact Hn | ].
  destruct (assign_address (form_stops st) (Z.to_nat index) addr) as [r |] eqn:E.
  - pose proof (assign_address_length _ _ _ _ E) as Hl.
    cbn [form_stops setStops]. split; [ | split; [ exact Hl | split ] ].
    + destruct (Z.ltb_spec index (Z.of_nat (List.length (form_stops st))));
        [ lia | ].
      assert (N : assign_address (form_stops st) (Z.to_nat index) addr = None).
      { apply assign_address_none. lia. }
      congruence.
    + apply assign_address_nth, E.
    + reflexivity.
  - right. apply assign_address_none in E. lia.
Qed.

(** X20.  In every state the form can reach, adding a stop and then removing the
    stop just added gives the state back. *)
Theorem add_then_remove_last (es : list event) :
  let st := DeliveryForm.run es in
  DeliveryForm.removeStop (Z.of_nat (List.length (form_stops st)))
    (DeliveryForm.addStop st) = st.
Proof.
  cbv zeta.
  assert (H : has_stop (DeliveryForm.run es)).
  { unfold DeliveryForm.run. apply fold_invariant; [ exact dispatch_has_stop | ].
    unfold has_stop; simpl; lia. }
  set (st := DeliveryForm.run es) in *. unfold has_stop in H.
  rewrite removeStop_exact. unfold DeliveryForm.addStop.
  cbn [form_stops setStops]. rewrite length_app. cbn [List.length].
  destruct (Nat.ltb_spec 1 (List.length (form_stops st) + 1)); [ | lia ].
  destruct (Z.leb_spec 0 (Z.of_nat (List.length (form_stops st)))); [ | lia ].
  destruct (Z.ltb_spec (Z.of_nat (List.length (form_stops st)))
              (Z.of_nat (List.length (form_stops st) + 1))); [ | lia ].
  cbn [andb]. rewrite Nat2Z.id.
  rewrite firstn_app, Nat.sub_diag, firstn_all. cbn [firstn].
  rewrite skipn_app, skipn_all2 by lia.
  replace (S (List.length (form_stops st)) - List.length (form_stops st)) with 1 by lia.
  cbn [skipn app]. rewrite !app_nil_r.
  destruct st; reflexivity.
Qed.

(** ** The delivery form: the default fuel efficiency *)

Lemma defaults_nonzero (k : string) (d : Q) :
  DeliveryFormV2.lookup k DeliveryFormV2.defaults = Some d -> Qeq_bool d 0 = false.
Proof.
  unfold DeliveryFormV2.lookup, DeliveryFormV2.defaults. cbn [find fst].
  repeat match goal with
         | |- context [String.eqb ?a k] =>
             destruct (String.eqb a k);
             [ cbn [option_map snd]; intros H; injection H as <-; reflexivity | ]
         end.
  discriminate.
Qed.

Lemma effect_follows (st : FormState) (v : string) :
  follows_defaults (DeliveryFormV2.vehicleTypeEffect (setVehicleType v st)).
Proof.
  unfold DeliveryFormV2.vehicleTypeEffect, follows_defaults.
  cbn [vehicleType setVehicleType].
  destruct (DeliveryFormV2.lookup v DeliveryFormV2.defaults) as [d |] eqn:E.
  - rewrite (defaults_nonzero v d E). cbn [vehicleType fuelEfficiency setFuelEfficiency
      setVehicleType]. rewrite E. reflexivity.
  - cbn [vehicleType setVehicleType]. rewrite E. exact I.
Qed.

Lemma dispatchV2_follows (st : FormState) (e : event) :
  no_fuel_edit [e] = true -> follows_defaults st ->
  follows_defaults (DeliveryFormV2.dispatch st e).
Proof.
  intros He H.
  destruct e as [| i | i a | s | v | q | b | b]; simpl; try exact H;
    try discriminate.
  - unfold DeliveryFormV2.removeStop. destruct (Nat.ltb _ _); exact H.
  - unfold DeliveryFormV2.updateStop. destruct (i <? 0)%Z; [ exact H | ].
    destruct (assign_address _ _ _); exact H.
  - destruct (String.eqb v (vehicleType st)); [ exact H | apply effect_follows ].
Qed.

Lemma dispatch_keeps_efficiency (st : FormState) (e : event) :
  no_fuel_edit [e] = true ->
  fuelEfficiency (DeliveryForm.dispatch st e) = fuelEfficiency st.
Proof.
  intros He.
  destruct e as [| i | i a | s | v | q | b | b]; simpl; try reflexivity;
    try discriminate.
  - unfold DeliveryForm.removeStop. destruct (Nat.ltb _ _); reflexivity.
  - unfold DeliveryForm.updateStop. destruct (i <? 0)%Z; [ reflexivity | ].
    destruct (assign_address _ _ _); reflexivity.
Qed.

(** X21.  As long as the user does not edit the fuel-efficiency field, the
    second variant submits the default efficiency of the selected vehicle
    type (18 for the van of a fresh form), while the first variant submits
    22 whatever the vehicle type. *)
Theorem default_fuel_efficiency (es : list event) :
  no_fuel_edit es = true ->
  let req2 := DeliveryFormV2.handleSubmit (DeliveryFormV2.run es) in
  let req1 := DeliveryForm.handleSubmit (DeliveryForm.run es) in
  match DeliveryFormV2.lookup (vehicle_type (vehicle req2)) DeliveryFormV2.defaults with
  | Some d => fuel_efficiency_mpg (vehicle req2) = d
  | None => True
  end
  /\ fuel_efficiency_mpg (vehicle req1) = 22%Q.
Proof.
  intros Hes. cbv zeta. split.
  - change (follows_defaults (DeliveryFormV2.run es)).
    unfold DeliveryFormV2.run.
    assert (H0 : follows_defaults DeliveryFormV2.mounted) by reflexivity.
    revert H0. generalize DeliveryFormV2.mounted.
    induction es as [| e es IH]; intros st H0; [ exact H0 | ].
    simpl in Hes. apply andb_prop in Hes as [He Hes].
    simpl. apply IH; [ exact Hes | ].
    apply dispatchV2_follows; [ simpl; rewrite He; reflexivity | exact H0 ].
  - change (fuelEfficiency (DeliveryForm.run es) = 22%Q).
    unfold DeliveryForm.run.
    change 22%Q with (fuelEfficiency DeliveryForm.initial) at 1.
    generalize DeliveryForm.initial.
    induction es as [| e es IH]; intros st; [ reflexivity | ].
    simpl in Hes. apply andb_prop in Hes as [He Hes].
    simpl. rewrite (IH Hes). apply dispatch_keeps_efficiency.
    simpl. rewrite He. reflexivity.
Qed.

(** ** The Optimizer page: what is shown after a call *)

(** X22.  A call always ends with the loading flag off and with exactly one of
    result and error set; the state it ends in depends only on how the
    call settled, not on what the page showed before, so a stale result or
    error never survives a new call. *)
Theorem optimize_settles (o : Optimizer.Outcome) (st : Optimizer.State) :
  let st' := Optimizer.handleOptimize o st in
  Optimizer.isLoading st' = false
  /\ (Optimizer.result st' = None <-> Optimizer.error st' <> None)
  /\ st' = Optimizer.handleOptimize o Optimizer.initial
  /\ match o with
     | Optimizer.Resolved r =>
         Optimizer.result st' = Some r /\ Optimizer.error st' = None
     | Optimizer.Rejected err =>
         Optimizer.result st' = None
         /\ Optimizer.error st' = Some (Optimizer.errorMessage err)
     end.
Proof.
  destruct o as [r | err]; cbv zeta; simpl; repeat split;
    intros; try discriminate; try congruence.
Qed.

(** X23.  After a rejected call the error banner is shown exactly when the
    [detail] of the rejection is not the empty array, and the results are
    not shown; after a successful call the results are shown and the
    banner is not. *)
Theorem banner_after_call (st : Optimizer.State) :
  (forall err,
     let st' := Optimizer.handleOptimize (Optimizer.Rejected err) st in
     (Optimizer.bannerVisible st' = true
      <-> Optimizer.response_detail err <> Some (Optimizer.DetailArray []))
     /\ Optimizer.resultsVisible st' = false)
  /\ (forall r,
        let st' := Optimizer.handleOptimize (Optimizer.Resolved r) st in
        Optimizer.bannerVisible st' = false /\ Optimizer.resultsVisible st' = true).
Proof.
  split; [ | intros r; split; reflexivity ].
  intros err. cbv zeta. split; [ | reflexivity ].
  unfold Optimizer.bannerVisible. simpl. rewrite truthy_nonempty. split.
  - intros Hne Hd. apply Hne. unfold Optimizer.errorMessage. rewrite Hd. reflexivity.
  - apply errorMessage_nonempty.
Qed.

(** ** The RiskZones page: searching *)

Lemma lower_ascii_idem (c : ascii) : JS.lower_ascii (JS.lower_ascii c) = JS.lower_ascii c.
Proof.
  destruct c as [[] [] [] [] [] [] [] []]; reflexivity.
Qed.

Lemma toLowerCase_idem (s : string) : JS.toLowerCase (JS.toLowerCase s) = JS.toLowerCase s.
Proof.
  induction s as [| c s IH]; simpl; [ reflexivity | ].
  rewrite lower_ascii_idem, IH. reflexivity.
Qed.

Lemma truthy_lower (s : string) : JS.truthy (JS.toLowerCase s) = JS.truthy s.
Proof. destruct s; reflexivity. Qed.

Lemma matchesSearch_lower (q q' : string) (z : RiskZone) :
  JS.toLowerCase q = JS.toLowerCase q' ->
  RiskZonesPage.matchesSearch q z = RiskZonesPage.matchesSearch q' z.
Proof.
  intros E. unfold RiskZonesPage.matchesSearch.
  rewrite <- (truthy_lower q), <- (truthy_lower q'), E. reflexivity.
Qed.

Lemma prefix_refl (s : string) : prefix s s = true.
Proof.
  induction s as [| c s IH]; simpl; [ reflexivity | ].
  destruct (ascii_dec c c); [ exact IH | contradiction ].
Qed.

Lemma includes_refl (s : string) : JS.includes s s = true.
Proof.
  destruct s; simpl; [ reflexivity | ].
  rewrite prefix_refl.
  destruct (ascii_dec a a); [ reflexivity | contradiction ].
Qed.

Lemma zone_type_string_lower (t : ZoneType) :
  JS.toLowerCase (zone_type_string t) = zone_type_string t.
Proof. destruct t; reflexivity. Qed.

(** X8.  The search ignores the case of the query: two queries that differ
    only in case list the same zones.  And the name of a zone type typed
    in the search box, in any case, lists at least every zone of that
    type. *)
Theorem search_ignores_case (riskZones : list RiskZone) (sel : option string)
  (q : string) :
  RiskZonesPage.filteredZones riskZones sel (JS.toLowerCase q)
  = RiskZonesPage.filteredZones riskZones sel q
  /\ (forall q', JS.toLowerCase q' = JS.toLowerCase q ->
                 RiskZonesPage.filteredZones riskZones sel q'
                 = RiskZonesPage.filteredZones riskZones sel q)
  /\ (forall t, JS.toLowerCase q = zone_type_string t ->
                incl (RiskZonesPage.filteredZones riskZones
                        (Some (zone_type_string t)) "")
                     (RiskZonesPage.filteredZones riskZones None q)).
Proof.
  assert (Hq : forall q', JS.toLowerCase q' = JS.toLowerCase q ->
                 RiskZonesPage.filteredZones riskZones sel q'
                 = RiskZonesPage.filteredZones riskZones sel q).
  { intros q' E. unfold RiskZonesPage.filteredZones. apply filter_ext.
    intros z. rewrite (matchesSearch_lower q' q z E). reflexivity. }
  split; [ apply Hq, toLowerCase_idem | ]. split; [ exact Hq | ].
  intros t Et z Hz. rewrite filtered_by_type in Hz.
  apply filter_In in Hz as [Hin Hty]. apply String.eqb_eq in Hty.
  unfold RiskZonesPage.filteredZones. apply filter_In. split; [ exact Hin | ].
  simpl. unfold RiskZonesPage.matchesSearch.
  destruct (JS.truthy q); [ | reflexivity ].
  rewrite Et, Hty, zone_type_string_lower, includes_refl. apply orb_true_r.
Qed.

Lemma sum_counts_bump (k : string) (acc : list (string * Z)) :
  RiskZonesPage.sum_counts (RiskZonesPage.bump k acc)
  = (RiskZonesPage.sum_counts acc + 1)%Z.
Proof.
  induction acc as [| [k0 n] acc IH]; simpl; [ reflexivity | ].
  destruct (String.eqb k0 k); simpl.
  - destruct (Z.eqb_spec n 0); lia.
  - rewrite IH. lia.
Qed.

(** X5.  The counts on the type chips add up to the number on the "All" chip,
    the number of zones. *)
Theorem chip_counts_total (riskZones : list RiskZone) :
  RiskZonesPage.sum_counts (RiskZonesPage.zoneCounts riskZones)
  = Z.of_nat (List.length riskZones).
Proof.
  induction riskZones as [| z l IH] using rev_ind; [ reflexivity | ].
  rewrite zoneCounts_snoc, sum_counts_bump, IH, length_app. simpl. lia.
Qed.

(** ** Instances of the properties with a precondition *)

Lemma savings_round_to_zero_witness :
  RouteComparison.calculateSavings
    {| RouteComparison.pr_distance := 12; RouteComparison.pr_time := 40;
       RouteComparison.pr_cost := 1000; RouteComparison.pr_risk := 3 |}
    (9997 # 10)
  = "Save Rs. 0".
Proof.
  apply (savings_round_to_zero
           {| RouteComparison.pr_distance := 12; RouteComparison.pr_time := 40;
              RouteComparison.pr_cost := 1000; RouteComparison.pr_risk := 3 |}
           (9997 # 10)); discriminate.
Defined.

Lemma difference_text_rounds_to_zero_witness :
  RouteComparison.getDifferenceText 10 (1003 # 100) "km" false = "+0.0km".
Proof.
  apply (difference_text_rounds_to_zero 10 (1003 # 100) "km" false);
    discriminate.
Defined.

Lemma default_fuel_efficiency_witness :
  fuel_efficiency_mpg
    (vehicle (DeliveryFormV2.handleSubmit
                (DeliveryFormV2.run [ChangeVehicleType "truck"; AddStop]))) = 8%Q
  /\ fuel_efficiency_mpg
       (vehicle (DeliveryForm.handleSubmit
                   (DeliveryForm.run [ChangeVehicleType "truck"; AddStop]))) = 22%Q.
Proof.
  exact (default_fuel_efficiency [ChangeVehicleType "truck"; AddStop] eq_refl).
Defined.
